(** * Master AI orchestration engine: a shallow embedding of [orchestrator.py]

    The development follows the layout of the Python module, leaf first:
    Python values and strings, [WorkflowState], [TokenBucket],
    [CircuitBreaker], and then [MasterOrchestrator] with its retry
    controller, model invoker, categorizer, workflow executor and request
    router.

    Numbers that are Python floats (clock readings, token balances, delays)
    are exact rationals [Q]; strings are byte strings and the case mappings
    act on ASCII letters. *)

From Stdlib Require Import QArith Qminmax Qpower Lqa ZArith Lia String Ascii List DecimalString.
From stdpp Require Import gmap strings.

Local Open Scope string_scope.

(** ** Python strings *)

Module PyStr.

Definition is_upper (c : ascii) : bool :=
  (65 <=? nat_of_ascii c)%nat && (nat_of_ascii c <=? 90)%nat.

Definition is_lower (c : ascii) : bool :=
  (97 <=? nat_of_ascii c)%nat && (nat_of_ascii c <=? 122)%nat.

Definition lower_char (c : ascii) : ascii :=
  if is_upper c then ascii_of_nat (nat_of_ascii c + 32) else c.

Definition upper_char (c : ascii) : ascii :=
  if is_lower c then ascii_of_nat (nat_of_ascii c - 32) else c.

Fixpoint map_chars (f : ascii -> ascii) (s : string) : string :=
  match s with
  | EmptyString => EmptyString
  | String c s' => String (f c) (map_chars f s')
  end.

(** [s.lower()] and [s.upper()] *)
Definition lower : string -> string := map_chars lower_char.
Definition upper : string -> string := map_chars upper_char.

(** [s.startswith(p)] *)
Fixpoint startswith (p s : string) : bool :=
  match p, s with
  | EmptyString, _ => true
  | String a p', String b s' => Ascii.eqb a b && startswith p' s'
  | String _ _, EmptyString => false
  end.

(** [needle in hay] *)
Fixpoint contains (needle hay : string) : bool :=
  startswith needle hay ||
  match hay with
  | EmptyString => false
  | String _ hay' => contains needle hay'
  end.

(** [c in s] for a single character, as a proposition *)
Fixpoint has_char (c : ascii) (s : string) : Prop :=
  match s with
  | EmptyString => False
  | String a s' => a = c \/ has_char c s'
  end.

(** [sep.join(parts)] *)
Fixpoint join (sep : string) (parts : list string) : string :=
  match parts with
  | [] => EmptyString
  | [p] => p
  | p :: rest => p +:+ sep +:+ join sep rest
  end.

(** Python's [str.isspace] on the ASCII range, which is also what the
    regular expression class [\s] accepts there. *)
Definition is_space (c : ascii) : bool :=
  let n := nat_of_ascii c in
  ((9 <=? n)%nat && (n <=? 13)%nat) || ((28 <=? n)%nat && (n <=? 32)%nat).

Fixpoint lstrip (s : string) : string :=
  match s with
  | String c s' => if is_space c then lstrip s' else s
  | EmptyString => EmptyString
  end.

Fixpoint rstrip (s : string) : string :=
  match s with
  | EmptyString => EmptyString
  | String c s' =>
      match rstrip s' with
      | EmptyString => if is_space c then EmptyString else String c EmptyString
      | r => String c r
      end
  end.

(** [s.strip()] *)
Definition strip (s : string) : string := rstrip (lstrip s).

(** [s[:n]] for a non-negative [n] *)
Fixpoint take (n : nat) (s : string) : string :=
  match n, s with
  | S n', String c s' => String c (take n' s')
  | _, _ => EmptyString
  end.

End PyStr.

(** ** Python values held in workflow variables and returned by model calls *)

Inductive pyval :=
| PNone
| PBool (b : bool)
| PInt (z : Z)
| PStr (s : string).

(** [str(v)] *)
Definition py_str (v : pyval) : string :=
  match v with
  | PNone => "None"
  | PBool true => "True"
  | PBool false => "False"
  | PInt z => NilZero.string_of_int (Z.to_int z)
  | PStr s => s
  end.

(** Truthiness, as used by [if v:] *)
Definition py_truthy (v : pyval) : bool :=
  match v with
  | PNone => false
  | PBool b => b
  | PInt z => negb (z =? 0)%Z
  | PStr s => negb (String.eqb s EmptyString)
  end.

(** ** WorkflowState *)

Record WorkflowState := mkState {
  variables : gmap string pyval;
  metadata : gmap string pyval
}.

Definition empty_state : WorkflowState := mkState ∅ ∅.

Definition set_variable (name : string) (value : pyval) (st : WorkflowState) : WorkflowState :=
  mkState (<[name := value]> (variables st)) (metadata st).

(** [self.variables.get(name)]: a missing key reads as [None]. *)
Definition get_variable (st : WorkflowState) (name : string) : pyval :=
  default PNone (variables st !! name).

Module Placeholder.

(** The pattern [\{([^}]+)\}].  [upto_close s] is the run of characters of
    [s] before its first closing brace, when there is one. *)
Fixpoint upto_close (s : string) : option string :=
  match s with
  | EmptyString => None
  | String c s' =>
      if Ascii.eqb c "}" then Some EmptyString
      else option_map (String c) (upto_close s')
  end.

(** The pattern anchored at the head of [s]; the result is [group(1)]. *)
Definition match_here (s : string) : option string :=
  match s with
  | String c s' =>
      if Ascii.eqb c "{" then
        match upto_close s' with
        | Some (String a n) => Some (String a n)
        | _ => None
        end
      else None
  | EmptyString => None
  end.

(** [re.sub(pattern, repl, s)]: scan left to right; at a position inside
    the previous match ([skip > 0]) nothing is emitted; elsewhere the
    pattern is tried, and either the replacement of the match or the
    character itself is emitted. *)
Fixpoint sub (repl : string -> string) (s : string) (skip : nat) : string :=
  match s with
  | EmptyString => EmptyString
  | String c s' =>
      match skip with
      | S k => sub repl s' k
      | O =>
          match match_here s with
          | Some name => repl name +:+ sub repl s' (S (String.length name))
          | None => String c (sub repl s' 0)
          end
      end
  end.

End Placeholder.

(** The closure [replacer] of [replace_variables]; [group(0)] is the name
    between its braces. *)
Definition replacer (st : WorkflowState) (var_name : string) : string :=
  match get_variable st var_name with
  | PNone => "{" +:+ var_name +:+ "}"
  | value => py_str value
  end.

Definition replace_variables (st : WorkflowState) (text : string) : string :=
  Placeholder.sub (replacer st) text 0.

(** A template seen as literal text and placeholders. *)
Inductive segment :=
| Lit (s : string)
| Hole (name : string).

Definition render (sg : segment) : string :=
  match sg with
  | Lit s => s
  | Hole n => "{" +:+ n +:+ "}"
  end.

Definition expand (st : WorkflowState) (sg : segment) : string :=
  match sg with
  | Lit s => s
  | Hole n =>
      match get_variable st n with
      | PNone => "{" +:+ n +:+ "}"
      | v => py_str v
      end
  end.

Definition segment_ok (sg : segment) : Prop :=
  match sg with
  | Lit s => ~ PyStr.has_char "{" s
  | Hole n => n <> EmptyString /\ ~ PyStr.has_char "}" n
  end.

Definition concat_map {A} (f : A -> string) (l : list A) : string :=
  fold_right (fun a acc => f a +:+ acc) EmptyString l.

(** ** TokenBucket *)

Record TokenBucket := mkBucket {
  capacity : Q;
  tokens : Q;
  refill_rate : Q;
  last_refill : Q
}.

(** [TokenBucket(capacity, refill_rate)] created when the clock reads [now]. *)
Definition new_bucket (cap rate now : Q) : TokenBucket :=
  mkBucket cap cap rate now.

(** [_refill], with [now] the reading of [time.time()]. *)
Definition _refill (now : Q) (b : TokenBucket) : TokenBucket :=
  let elapsed := (now - last_refill b)%Q in
  let new_tokens := (elapsed * refill_rate b)%Q in
  mkBucket (capacity b) (Qmin (capacity b) (tokens b + new_tokens)) (refill_rate b) now.

(** [consume(tokens_required)] *)
Definition consume (now : Q) (tokens_required : Q) (b : TokenBucket) : bool * TokenBucket :=
  let b' := _refill now b in
  if Qle_bool tokens_required (tokens b') then
    (true, mkBucket (capacity b') (tokens b' - tokens_required) (refill_rate b') (last_refill b'))
  else (false, b').

(** A sequence of attempts, each with the clock reading at the call and the
    amount asked for; the result lists every answer with the bucket it
    leaves behind. *)
Fixpoint consume_all (calls : list (Q * Q)) (b : TokenBucket) : list (bool * TokenBucket) :=
  match calls with
  | [] => []
  | (now, n) :: rest =>
      let r := consume now n b in
      r :: consume_all rest (snd r)
  end.

(** Clock readings never run backwards. *)
Fixpoint chronological (t0 : Q) (calls : list (Q * Q)) : Prop :=
  match calls with
  | [] => True
  | (now, _) :: rest => (t0 <= now)%Q /\ chronological now rest
  end.

Definition balance_ok (b : TokenBucket) : Prop :=
  (0 <= tokens b)%Q /\ (tokens b <= capacity b)%Q.

(** ** Exceptions and the effect monad *)

Inductive exn :=
| PyException (msg : string)
| ValueError (msg : string)
| TypeError (msg : string)
| AttributeError (msg : string)
| KeyError (key : string)
| JSONDecodeError (msg : string)
| RecursionError (msg : string)
| UpstreamError (msg : string).

(** [str(e)] *)
Definition exn_str (e : exn) : string :=
  match e with
  | PyException m | ValueError m | TypeError m | AttributeError m
  | JSONDecodeError m | RecursionError m | UpstreamError m => m
  | KeyError k => "'" +:+ k +:+ "'"
  end.

(** A computation returns, raises, or is still running when the budget of
    loop iterations and recursive calls given to it is used up. *)
Inductive result (A : Type) :=
| Ok (a : A)
| Raise (e : exn)
| Diverge.
Arguments Ok {A} a.
Arguments Raise {A} e.
Arguments Diverge {A}.

Definition M (S A : Type) : Type := S -> result A * S.

Definition ret {S A} (a : A) : M S A := fun s => (Ok a, s).

Definition bind {S A B} (m : M S A) (k : A -> M S B) : M S B :=
  fun s =>
    match m s with
    | (Ok a, s') => k a s'
    | (Raise e, s') => (Raise e, s')
    | (Diverge, s') => (Diverge, s')
    end.

Definition raise {S A} (e : exn) : M S A := fun s => (Raise e, s).

Definition diverge {S A} : M S A := fun s => (Diverge, s).

(** [try: m  except Exception as e: handler(e)] *)
Definition try_except {S A} (m : M S A) (handler : exn -> M S A) : M S A :=
  fun s =>
    match m s with
    | (Raise e, s') => handler e s'
    | r => r
    end.

Definition get {S} : M S S := fun s => (Ok s, s).
Definition modify {S} (f : S -> S) : M S unit := fun s => (Ok tt, f s).

#[global] Instance M_ret {S} : MRet (M S) := @ret S.
#[global] Instance M_bind {S} : MBind (M S) := fun A B k m => bind m k.

(** ** CircuitBreaker *)

Inductive breaker_state := closed | open | half_open.

Record CircuitBreaker := mkBreaker {
  failure_threshold : Z;
  timeout_seconds : Q;
  failures : Z;
  last_failure_time : option Q;
  state : breaker_state
}.

(** [CircuitBreaker(failure_threshold, timeout_seconds)] *)
Definition new_breaker (threshold : Z) (timeout : Q) : CircuitBreaker :=
  mkBreaker threshold timeout 0 None closed.

Definition breaker_open_error : exn := PyException "Circuit breaker is OPEN".

Definition Qgt_bool (x y : Q) : bool := negb (Qle_bool x y).

Module Breaker.

(** The gate at the head of [call]: an open breaker lets the call through,
    as half-open, only once the timeout has passed. *)
Definition gate (now : Q) (cb : CircuitBreaker) : exn + CircuitBreaker :=
  match state cb with
  | open =>
      match last_failure_time cb with
      | None => inl (TypeError "unsupported operand type(s) for -: 'float' and 'NoneType'")
      | Some t =>
          if Qgt_bool (now - t) (timeout_seconds cb)
          then inr (mkBreaker (failure_threshold cb) (timeout_seconds cb)
                      (failures cb) (last_failure_time cb) half_open)
          else inl breaker_open_error
      end
  | _ => inr cb
  end.

(** The wrapped function returned. *)
Definition on_success (cb : CircuitBreaker) : CircuitBreaker :=
  match state cb with
  | half_open =>
      mkBreaker (failure_threshold cb) (timeout_seconds cb) 0 (last_failure_time cb) closed
  | _ => cb
  end.

(** The wrapped function raised; [now] is the clock reading in the handler. *)
Definition on_failure (now : Q) (cb : CircuitBreaker) : CircuitBreaker :=
  let n := (failures cb + 1)%Z in
  mkBreaker (failure_threshold cb) (timeout_seconds cb) n (Some now)
    (if (failure_threshold cb <=? n)%Z then open else state cb).

Section Call.
Context {S A : Type} (time : S -> Q).

(** [call(func)]: the breaker is threaded next to the state [S] on which
    [func] acts. *)
Definition call (func : M S A) : M (CircuitBreaker * S) A :=
  fun '(cb, s) =>
    match gate (time s) cb with
    | inl e => (Raise e, (cb, s))
    | inr cb1 =>
        match func s with
        | (Ok a, s') => (Ok a, (on_success cb1, s'))
        | (Raise e, s') => (Raise e, (on_failure (time s') cb1, s'))
        | (Diverge, s') => (Diverge, (cb1, s'))
        end
    end.
End Call.

(** What a breaker can go through: passing the gate, a success, a failure. *)
Inductive step : CircuitBreaker -> CircuitBreaker -> Prop :=
| step_gate now cb cb' : gate now cb = inr cb' -> step cb cb'
| step_success cb : step cb (on_success cb)
| step_failure now cb : step cb (on_failure now cb).

Inductive reachable (threshold : Z) (timeout : Q) : CircuitBreaker -> Prop :=
| reach_new : reachable threshold timeout (new_breaker threshold timeout)
| reach_step cb cb' :
    reachable threshold timeout cb -> step cb cb' -> reachable threshold timeout cb'.

(** One [call] after another, each with its own wrapped function. *)
Fixpoint call_each {S A} (time : S -> Q) (funcs : list (M S A))
    (st : CircuitBreaker * S) : CircuitBreaker * S :=
  match funcs with
  | [] => st
  | func :: rest => call_each time rest (snd (call time func st))
  end.

(** A wrapped function that raises wherever it is started. *)
Definition always_raises {S A} (func : M S A) : Prop :=
  forall s, exists e s', func s = (Raise e, s').

End Breaker.


(** ** Configuration *)

Record ModelConfig := mkModel {
  mc_provider : string;
  mc_model : string;
  mc_config : gmap string Q
}.

Record RetryConfig := mkRetry {
  base_delay_ms : Q;
  max_delay_ms : Q;
  exponential_base : Q;
  jitter_enabled : bool
}.

Record BreakerConfig := mkBreakerConfig {
  cfg_failure_threshold : Z;
  cfg_timeout_seconds : Q
}.

Record ContextLimits := mkLimits {
  deny_request : Z;
  force_gemini_pro : Z;
  force_thinking_ai : Z
}.

Record Config := mkConfig {
  ai_models : gmap string ModelConfig;
  base_ai_prompts : gmap string string;
  prompt_addons : gmap string string;
  model_fallbacks : gmap string (list string);
  circuit_breaker : BreakerConfig;
  retry_config : RetryConfig;
  context_limits : ContextLimits;
  categorization : gmap string (gmap string string)
}.

(** The per-call [config] dictionary: its ['addons'] entry and its sampling
    parameters. *)
Record CallConfig := mkCall {
  addons : option (list string);
  params : gmap string Q
}.

Definition temperature (t : Q) : CallConfig := mkCall None {[ "temperature" := t ]}.

(** ** The world a request runs in *)

Inductive Request :=
| ChatCompletion (model : string) (system : option string) (prompt : string)
    (temperature max_tokens top_p : Q)
| ImageGeneration (prompt : string) (config : gmap string Q)
| VideoGeneration (prompt : string) (config : gmap string Q).

Inductive event :=
| EvSleep (seconds : Q)
| EvRequest (rq : Request).

Record Response := mkResponse {
  latency : Q;
  outcome : exn + pyval
}.

Record World := mkWorld {
  clock : Q;
  rate_limiters : gmap string TokenBucket;
  circuit_breakers : gmap string CircuitBreaker;
  provider : nat -> Request -> Response;
  requests_made : nat;
  random : nat -> Q;
  draws : nat;
  trace : list event
}.

Definition is_sleep (ev : event) : bool :=
  match ev with EvSleep _ => true | EvRequest _ => false end.

Definition sleeps (tr : list event) : list event := List.filter is_sleep tr.
Definition requests (tr : list event) : list event :=
  List.filter (fun ev => negb (is_sleep ev)) tr.

(** [await asyncio.sleep(d)] *)
Definition sleep (d : Q) : M World unit :=
  fun w => (Ok tt,
    mkWorld (clock w + d) (rate_limiters w) (circuit_breakers w) (provider w)
      (requests_made w) (random w) (draws w) (trace w ++ [EvSleep d])).

(** [random.random()] *)
Definition random_draw : M World Q :=
  fun w => (Ok (random w (draws w)),
    mkWorld (clock w) (rate_limiters w) (circuit_breakers w) (provider w)
      (requests_made w) (random w) (S (draws w)) (trace w)).

(** [await self.client.post(...)], [raise_for_status] and the decoding of
    the body. *)
Definition http_post (rq : Request) : M World pyval :=
  fun w =>
    let resp := provider w (requests_made w) rq in
    let w' := mkWorld (clock w + latency resp) (rate_limiters w) (circuit_breakers w)
                (provider w) (S (requests_made w)) (random w) (draws w)
                (trace w ++ [EvRequest rq]) in
    match outcome resp with
    | inl e => (Raise e, w')
    | inr v => (Ok v, w')
    end.

Definition set_rate_limiter (name : string) (b : TokenBucket) (w : World) : World :=
  mkWorld (clock w) (<[name := b]> (rate_limiters w)) (circuit_breakers w) (provider w)
    (requests_made w) (random w) (draws w) (trace w).

Definition set_circuit_breaker (name : string) (cb : CircuitBreaker) (w : World) : World :=
  mkWorld (clock w) (rate_limiters w) (<[name := cb]> (circuit_breakers w)) (provider w)
    (requests_made w) (random w) (draws w) (trace w).

Definition nl : string := String (ascii_of_nat 10) EmptyString.

(** ** Workflow definitions *)

Record Task := mkTask {
  task_model : string;
  task_prompt : string;
  task_output_variable : option string;
  task_config : option CallConfig
}.

Record Step := mkStep {
  step_type : option string;
  step_tasks : list Task
}.

(** What [json.loads] followed by [.get('workflow', [])] makes of the
    planner's text: [json.loads] raises [JSONDecodeError] on text that is no
    JSON ([JsonInvalid]), or raises something else ([JsonRaises]: a
    [RecursionError] on deeply nested text, a [ValueError] on an integer
    longer than the interpreter's digit limit), or returns a value that is
    no object and so has no [get] ([JsonNotObject], with the name of the
    value's type), or returns an object,
    whose ['workflow'] entry, [[]] when there is none, is the list of steps
    ([JsonWorkflow]). *)
Inductive planned :=
| JsonInvalid (msg : string)
| JsonRaises (e : exn)
| JsonNotObject (type_name : string)
| JsonWorkflow (steps : list Step).

(** [except json.JSONDecodeError] *)
Definition is_json_decode_error (e : exn) : bool :=
  match e with
  | JSONDecodeError _ => true
  | _ => false
  end.

(** [if output_variable:] *)
Definition names_variable (o : option string) : option string :=
  match o with
  | Some name => if String.eqb name EmptyString then None else Some name
  | None => None
  end.

(** ** Extraction of the JSON text of a plan *)

Module ExtractJson.

Definition fence : string := "```".

(** The lazy group [\{.*?\}] once its opening brace is read: the shortest
    run ending in a closing brace after which [\s*```] matches. *)
Fixpoint lazy_close (s : string) : option string :=
  match s with
  | EmptyString => None
  | String c s' =>
      if Ascii.eqb c "}" && PyStr.startswith fence (PyStr.lstrip s')
      then Some (String c EmptyString)
      else option_map (String c) (lazy_close s')
  end.

(** [\s*(\{.*?\})\s*```] *)
Definition fenced_body (s : string) : option string :=
  match PyStr.lstrip s with
  | String c s' =>
      if Ascii.eqb c "{" then option_map (String c) (lazy_close s') else None
  | EmptyString => None
  end.

Fixpoint drop (n : nat) (s : string) : string :=
  match n, s with
  | S n', String _ s' => drop n' s'
  | _, _ => s
  end.

(** The first pattern anchored at the head of [s]: the optional [json] is
    tried present first, then absent. *)
Definition fenced_here (s : string) : option string :=
  if PyStr.startswith fence s then
    let r := drop 3 s in
    let without := fenced_body r in
    if PyStr.startswith "json" r then
      match fenced_body (drop 4 r) with
      | Some g => Some g
      | None => without
      end
    else without
  else None.

(** [re.search] of the first pattern: the leftmost position where it
    matches. *)
Fixpoint search_fenced (s : string) : option string :=
  match fenced_here s with
  | Some g => Some g
  | None =>
      match s with
      | EmptyString => None
      | String _ s' => search_fenced s'
      end
  end.

(** The greedy [.*\}]: the longest prefix of [s] ending in a closing brace. *)
Fixpoint upto_last_close (s : string) : option string :=
  match s with
  | EmptyString => None
  | String c s' =>
      match upto_last_close s' with
      | Some u => Some (String c u)
      | None => if Ascii.eqb c "}" then Some (String c EmptyString) else None
      end
  end.

(** [re.search] of the second pattern [\{.*\}]. *)
Fixpoint search_raw (s : string) : option string :=
  match s with
  | EmptyString => None
  | String c s' =>
      if Ascii.eqb c "{" then
        match upto_last_close s' with
        | Some u => Some (String c u)
        | None => search_raw s'
        end
      else search_raw s'
  end.

End ExtractJson.

Definition _extract_json (text : string) : string :=
  match ExtractJson.search_fenced text with
  | Some g => g
  | None =>
      match ExtractJson.search_raw text with
      | Some g => g
      | None => text
      end
  end.

(** ** Retry delays *)

(** [min(base_delay * (exponential_base ** attempt), max_delay)], the delays
    being the configured milliseconds over 1000. *)
Definition backoff_delay (rc : RetryConfig) (attempt : nat) : Q :=
  Qmin ((base_delay_ms rc / 1000) * (exponential_base rc) ^ (Z.of_nat attempt))
       (max_delay_ms rc / 1000).

(** The delay once the jitter, drawn as [r], is applied. *)
Definition jittered (rc : RetryConfig) (attempt : nat) (r : Q) : Q :=
  backoff_delay rc attempt * ((1 # 2) + r).

(** What [_retry_with_backoff] sleeps after the failure of [attempt] in the
    world [w]: the jitter is the next draw of [w]. *)
Definition slept_delay (rc : RetryConfig) (attempt : nat) (w : World) : Q :=
  if jitter_enabled rc then jittered rc attempt (random w (draws w))
  else backoff_delay rc attempt.

(** [needle] occurs in [hay]. *)
Definition occurs_in (needle hay : string) : Prop :=
  exists pre post, hay = pre +:+ needle +:+ post.

(** ** MasterOrchestrator *)

(** A [WorkflowState] object travels next to the world. *)
Definition Run : Type := (WorkflowState * World)%type.

Definition in_world {A} (m : M World A) : M Run A :=
  fun '(st, w) => let '(r, w') := m w in (r, (st, w')).

Definition in_state (f : WorkflowState -> WorkflowState) : M Run unit :=
  fun '(st, w) => (Ok tt, (f st, w)).

Definition read_state : M Run WorkflowState := fun '(st, w) => (Ok st, (st, w)).

Section MasterOrchestrator.

(** [self.config] *)
Variable cfg : Config.

(** [asyncio.gather] with [return_exceptions=True]: how the event
    loop interleaves the coroutines of a batch is left open. *)
Variable gather : list (M Run pyval) -> M Run (list (exn + pyval)).

(** [json.loads] with the lookup of ['workflow'], and [json.dumps(_, indent=2)]. *)
Variable json_loads : string -> planned.
Variable json_dumps : gmap string pyval -> string.

Definition _get_circuit_breaker (model_name : string) : M World CircuitBreaker :=
  fun w =>
    match circuit_breakers w !! model_name with
    | Some cb => (Ok cb, w)
    | None =>
        let cb := new_breaker (cfg_failure_threshold (circuit_breaker cfg))
                    (cfg_timeout_seconds (circuit_breaker cfg)) in
        (Ok cb, set_circuit_breaker model_name cb w)
    end.

(** One pass of the loop of [_retry_with_backoff], from [attempt] on, with
    [todo] iterations of [range(max_retries)] left. *)
Fixpoint retry_from (func : M World pyval) (max_retries attempt todo : nat)
    : M World pyval :=
  match todo with
  | O => mret PNone
  | S todo' =>
      try_except func (fun e =>
        if (attempt =? max_retries - 1)%nat then raise e
        else
          let delay := backoff_delay (retry_config cfg) attempt in
          delay ← (if jitter_enabled (retry_config cfg)
                   then r ← random_draw; mret (delay * ((1 # 2) + r))%Q
                   else mret delay);
          sleep delay;;
          retry_from func max_retries (S attempt) todo')
  end.

Definition _retry_with_backoff (func : M World pyval) (max_retries : nat) : M World pyval :=
  retry_from func max_retries 0 max_retries.

(** [while not rate_limiter.consume(): await asyncio.sleep(0.1)] *)
Fixpoint await_tokens (fuel : nat) (name : string) : M World unit :=
  fun w =>
    match rate_limiters w !! name with
    | None => (Ok tt, w)
    | Some b =>
        let '(granted, b') := consume (clock w) 1 b in
        let w' := set_rate_limiter name b' w in
        if granted then (Ok tt, w')
        else
          match fuel with
          | O => (Diverge, w')
          | S fuel' => (sleep (1 # 10);; await_tokens fuel' name) w'
          end
    end.

Definition _call_openrouter (model prompt system_prompt : string) (config : gmap string Q)
    : M World pyval :=
  http_post (ChatCompletion model
    (if String.eqb system_prompt EmptyString then None else Some system_prompt) prompt
    (default (7 # 10) (config !! "temperature"))
    (default (2000 # 1) (config !! "max_tokens"))
    (default (95 # 100) (config !! "top_p"))).

Definition _call_google_ai (model prompt : string) (config : gmap string Q) : M World pyval :=
  if PyStr.contains "imagen" (PyStr.lower model) then http_post (ImageGeneration prompt config)
  else if PyStr.contains "veo" (PyStr.lower model) then http_post (VideoGeneration prompt config)
  else raise (ValueError ("Unknown Google AI model: " +:+ model)).

(** The closure [_make_request] of [call_ai_model]. *)
Definition _make_request (fuel : nat) (provider_name model prompt full_system_prompt : string)
    (final_config : gmap string Q) : M World pyval :=
  await_tokens fuel provider_name;;
  if String.eqb provider_name "openrouter" then
    _call_openrouter model prompt full_system_prompt final_config
  else if String.eqb provider_name "google_ai" then
    _call_google_ai model prompt final_config
  else raise (ValueError ("Unknown provider: " +:+ provider_name)).

Definition addon_texts (names : list string) : list string :=
  omap (fun addon_name =>
          let addon_text := default EmptyString (prompt_addons cfg !! addon_name) in
          if String.eqb addon_text EmptyString then None
          else Some ("[" +:+ PyStr.upper addon_name +:+ " ADDON]: " +:+ addon_text))
       names.

Definition full_system_prompt (model_name : string) (config : option CallConfig)
    (system_prompt : option string) : string :=
  let base :=
    match system_prompt with
    | Some s => if String.eqb s EmptyString then default EmptyString (base_ai_prompts cfg !! model_name) else s
    | None => default EmptyString (base_ai_prompts cfg !! model_name)
    end in
  match config with
  | Some c =>
      match addons c with
      | Some names =>
          match addon_texts names with
          | [] => base
          | texts => base +:+ nl +:+ nl +:+ PyStr.join (nl +:+ nl) texts
          end
      | None => base
      end
  | None => base
  end.

(** [{**model_config.get('config', {}), **(config or {})}] *)
Definition final_config (mc : ModelConfig) (config : option CallConfig) : gmap string Q :=
  match config with
  | Some c => params c ∪ mc_config mc
  | None => mc_config mc
  end.

(** The body of the [try] of [call_ai_model]. *)
Definition call_primary (fuel : nat) (model_name : string) (mc : ModelConfig)
    (prompt : string) (config : option CallConfig) (system_prompt : option string)
    : M World pyval :=
  _get_circuit_breaker model_name;;
  _retry_with_backoff
    (_make_request fuel (mc_provider mc) (mc_model mc) prompt
       (full_system_prompt model_name config system_prompt) (final_config mc config))
    3.

Fixpoint call_ai_model (fuel : nat) (model_name prompt : string)
    (config : option CallConfig) (system_prompt : option string) : M World pyval :=
  match fuel with
  | O => diverge
  | S fuel' =>
      match ai_models cfg !! model_name with
      | None => raise (ValueError ("Unknown model: " +:+ model_name))
      | Some mc =>
          try_except (call_primary fuel' model_name mc prompt config system_prompt)
            (fun e =>
               (fix try_fallbacks (fallbacks : list string) : M World pyval :=
                  match fallbacks with
                  | [] => raise e
                  | fallback_model :: rest =>
                      try_except
                        (call_ai_model fuel' fallback_model prompt config system_prompt)
                        (fun _ => try_fallbacks rest)
                  end)
               (default [] (model_fallbacks cfg !! model_name)))
      end
  end.

Definition _contains_image (message : string) : bool :=
  PyStr.contains "image:" (PyStr.lower message) || PyStr.contains "img:" (PyStr.lower message).

Definition categorize_request (fuel : nat) (user_message : string) (context_tokens : Z)
    : M World string :=
  let limits := context_limits cfg in
  if (deny_request limits <? context_tokens)%Z then
    raise (ValueError "Request exceeds maximum token limit")
  else if (force_gemini_pro limits <? context_tokens)%Z then mret "L"
  else if (force_thinking_ai limits <? context_tokens)%Z then mret "L"
  else if _contains_image user_message then mret "L"
  else
    category ← call_ai_model fuel "categorizer_ai" user_message
                 (Some (temperature (3 # 10))) None;
    match category with
    | PStr text =>
        let category := PyStr.upper (PyStr.strip text) in
        if String.eqb category "L" || String.eqb category "M" || String.eqb category "H"
        then mret category
        else mret "H"
    | _ => raise (AttributeError "object has no attribute 'strip'")
    end.

Definition _execute_task (fuel : nat) (task : Task) : M Run pyval :=
  let model_name := task_model task in
  let output_variable := task_output_variable task in
  let config := Some (default (mkCall None ∅) (task_config task)) in
  state ← read_state;
  let prompt := replace_variables state (task_prompt task) in
  try_except
    (result ← in_world (call_ai_model fuel model_name prompt config None);
     match names_variable output_variable with
     | Some name => in_state (set_variable name result)
     | None => mret tt
     end;;
     mret result)
    (fun e =>
       try_except
         (in_world (call_ai_model fuel "ai_workers_failed_ai"
            ("Task failed: " +:+ exn_str e +:+ ". Model: " +:+ model_name +:+
             ". Prompt: " +:+ PyStr.take 200 prompt +:+ "...")
            (Some (temperature (7 # 10))) None))
         (fun _ => raise e)).

(** [for task in tasks: await self._execute_task(task, state)] *)
Fixpoint run_inline (fuel : nat) (tasks : list Task) : M Run unit :=
  match tasks with
  | [] => mret tt
  | task :: rest => _execute_task fuel task;; run_inline fuel rest
  end.

(** The check of the gathered results: the first exception is raised. *)
Fixpoint raise_first (results : list (exn + pyval)) : M Run unit :=
  match results with
  | [] => mret tt
  | inl e :: _ => raise e
  | inr _ :: rest => raise_first rest
  end.

Definition execute_step (fuel : nat) (step : Step) : M Run unit :=
  let step_type := default "inline" (step_type step) in
  if String.eqb step_type "linear" then
    results ← gather (map (_execute_task fuel) (step_tasks step));
    raise_first results
  else if String.eqb step_type "inline" then run_inline fuel (step_tasks step)
  else raise (ValueError ("Unknown step type: " +:+ step_type)).

Fixpoint execute_workflow (fuel : nat) (workflow_definition : list Step) : M Run unit :=
  match workflow_definition with
  | [] => mret tt
  | step :: rest => execute_step fuel step;; execute_workflow fuel rest
  end.

Definition routing_entry (routing : gmap string string) (key : string) : M World string :=
  match routing !! key with
  | Some v => mret v
  | None => raise (KeyError key)
  end.

Definition acknowledge_prompt (user_message : string) : string :=
  "User requested: " +:+ user_message +:+ ". Acknowledge that you're working on it.".

Definition workflow_prompt (user_message : string) : string :=
  "User request: " +:+ user_message +:+ nl +:+ nl +:+
  "Create a JSON workflow to fulfill this request. Output ONLY valid JSON in the format specified in your system prompt.".

(** The high-tier path of [process_request] once the acknowledgement and the
    plan are there. *)
Definition run_plan (fuel : nat) (user_message : string) (fast_response workflow_json : pyval)
    : M World pyval :=
  match workflow_json with
  | PStr text =>
      match json_loads (_extract_json text) with
      | JsonInvalid _ =>
          mret (PStr ("Error: Could not create workflow. " +:+ py_str fast_response))
      | JsonRaises e =>
          if is_json_decode_error e then
            mret (PStr ("Error: Could not create workflow. " +:+ py_str fast_response))
          else raise e
      | JsonNotObject type_name =>
          raise (AttributeError ("'" +:+ type_name +:+ "' object has no attribute 'get'"))
      | JsonWorkflow workflow_steps =>
          fun w =>
            let state := set_variable "user_message" (PStr user_message) empty_state in
            match execute_workflow fuel workflow_steps (state, w) with
            | (Ok _, (final_state, w')) =>
                let completion_msg := get_variable final_state "completion_message" in
                if py_truthy completion_msg then
                  (Ok (PStr (py_str fast_response +:+ nl +:+ nl +:+ py_str completion_msg)), w')
                else
                  let results := delete "user_message" (variables final_state) in
                  (Ok (PStr (py_str fast_response +:+ nl +:+ nl +:+ "Results:" +:+ nl +:+
                              json_dumps results)), w')
            | (Raise e, (_, w')) =>
                (Ok (PStr (py_str fast_response +:+ nl +:+ nl +:+
                           "Error during execution: " +:+ exn_str e)), w')
            | (Diverge, (_, w')) => (Diverge, w')
            end
      end
  | _ => raise (TypeError "expected string or bytes-like object")
  end.

Definition process_request (fuel : nat) (user_message : string) (context_tokens : Z)
    : M World pyval :=
  category ← categorize_request fuel user_message context_tokens;
  match categorization cfg !! category with
  | None => raise (KeyError category)
  | Some routing =>
      if String.eqb category "L" || String.eqb category "M" then
        model ← routing_entry routing "model";
        call_ai_model fuel model user_message (Some (temperature (7 # 10))) None
      else if String.eqb category "H" then
        fast_model ← routing_entry routing "fast_response_model";
        fast_response ← call_ai_model fuel fast_model (acknowledge_prompt user_message)
          (Some (temperature (7 # 10))) None;
        model ← routing_entry routing "model";
        workflow_json ← call_ai_model fuel model (workflow_prompt user_message)
          (Some (temperature (7 # 10))) None;
        run_plan fuel user_message fast_response workflow_json
      else mret (PStr ("Unknown category: " +:+ category))
  end.

End MasterOrchestrator.

(** ** The HTTP front end ([api_server.py]) *)

Module Api.

(** What an endpoint gives back: its response model, or the
    [HTTPException] it raised. *)
Inductive http (A : Type) :=
| Response (body : A)
| HTTPException (status_code : Z) (detail : string).
Arguments Response {A} body.
Arguments HTTPException {A} status_code detail.

Record Message := mkMessage {
  role : string;
  content : pyval;
  timestamp : string
}.

Record Session := mkSession {
  created_at : string;
  messages : list Message
}.

Record ChatResponse := mkChatResponse {
  chat_session_id : string;
  chat_response : string;
  chat_timestamp : string
}.

Record WorkflowResponse := mkWorkflowResponse {
  workflow_status : string;
  workflow_result : gmap string pyval;
  execution_time : Q
}.

(** The requests run on the session store and the world. *)
Definition Server : Type := (gmap string Session * World)%type.

(** [for key, value in request.variables.items(): state.set_variable(key, value)]
    on a new state, when the request has variables. *)
Definition seed_state (request_variables : option (gmap string pyval)) : WorkflowState :=
  match request_variables with
  | Some vars => map_fold set_variable empty_state vars
  | None => empty_state
  end.

(** [GET /session/{session_id}] *)
Definition get_session (session_id : string) (sessions : gmap string Session) : http Session :=
  match sessions !! session_id with
  | None => HTTPException 404 "Session not found"
  | Some session => Response session
  end.

(** [DELETE /session/{session_id}]: the body names the deleted session. *)
Definition delete_session (session_id : string) (sessions : gmap string Session)
    : http string * gmap string Session :=
  match sessions !! session_id with
  | None => (HTTPException 404 "Session not found", sessions)
  | Some _ => (Response session_id, delete session_id sessions)
  end.

(** [sessions[session_id]["messages"].append(message)] *)
Definition append_message (session_id : string) (message : Message)
    (sessions : gmap string Session) : gmap string Session :=
  match sessions !! session_id with
  | Some session =>
      <[session_id := mkSession (created_at session) (messages session ++ [message])]> sessions
  | None => sessions
  end.

Section Endpoints.

(** The global [orchestrator]: its configuration once the startup event has
    run. *)
Variable orchestrator : option Config.
Variable gather : list (M Run pyval) -> M Run (list (exn + pyval)).
Variable json_loads : string -> planned.
Variable json_dumps : gmap string pyval -> string.

(** [datetime.utcnow().isoformat()] of a clock reading, [str(uuid.uuid4())],
    and what the validation of [ChatResponse] makes of a response that is no
    string. *)
Variable isoformat : Q -> string.
Variable uuid4 : string.
Variable validate_other : pyval -> exn + string.

Definition validate_response (response_text : pyval) : exn + string :=
  match response_text with
  | PStr text => inr text
  | other => validate_other other
  end.

(** [POST /workflow] *)
Definition execute_workflow (fuel : nat) (workflow : list Step)
    (request_variables : option (gmap string pyval)) : M World (http WorkflowResponse) :=
  match orchestrator with
  | None => mret (HTTPException 503 "Orchestrator not initialized")
  | Some cfg =>
      fun w =>
        let start_time := clock w in
        match execute_workflow cfg gather fuel workflow (seed_state request_variables, w) with
        | (Ok _, (final_state, w')) =>
            (Ok (Response (mkWorkflowResponse "completed" (variables final_state)
                             (clock w' - start_time))), w')
        | (Raise e, (_, w')) => (Ok (HTTPException 500 (exn_str e)), w')
        | (Diverge, (_, w')) => (Diverge, w')
        end
  end.

(** [POST /chat] *)
Definition chat (fuel : nat) (message : string) (request_session_id : option string)
    (context_tokens : Z) : M Server (http ChatResponse) :=
  match orchestrator with
  | None => mret (HTTPException 503 "Orchestrator not initialized")
  | Some cfg =>
      fun '(sessions, w) =>
        let session_id :=
          match request_session_id with
          | Some id => if String.eqb id EmptyString then uuid4 else id
          | None => uuid4
          end in
        let sessions :=
          match sessions !! session_id with
          | Some _ => sessions
          | None => <[session_id := mkSession (isoformat (clock w)) []]> sessions
          end in
        let sessions :=
          append_message session_id
            (mkMessage "user" (PStr message) (isoformat (clock w))) sessions in
        match process_request cfg gather json_loads json_dumps fuel message context_tokens w with
        | (Ok response_text, w') =>
            let sessions :=
              append_message session_id
                (mkMessage "assistant" response_text (isoformat (clock w'))) sessions in
            match validate_response response_text with
            | inr text =>
                (Ok (Response (mkChatResponse session_id text (isoformat (clock w')))),
                 (sessions, w'))
            | inl e => (Ok (HTTPException 500 (exn_str e)), (sessions, w'))
            end
        | (Raise e, w') => (Ok (HTTPException 500 (exn_str e)), (sessions, w'))
        | (Diverge, w') => (Diverge, (sessions, w'))
        end
  end.

End Endpoints.

End Api.

(** ** A small configuration and scripted worlds, used in worked examples *)

Module Demo.

Definition models : gmap string ModelConfig :=
  {[ "categorizer_ai" := mkModel "openrouter" "demo/categorizer" ∅;
     "thinking_ai" := mkModel "openrouter" "demo/thinking" ∅;
     "fast_response_ai" := mkModel "openrouter" "demo/fast" ∅;
     "master_ai" := mkModel "openrouter" "demo/master" ∅;
     "local_ai" := mkModel "acme" "acme-1" ∅ ]}.

Definition routes : gmap string (gmap string string) :=
  {[ "L" := {[ "model" := "thinking_ai" ]};
     "M" := {[ "model" := "thinking_ai" ]};
     "H" := {[ "model" := "master_ai"; "fast_response_model" := "fast_response_ai" ]} ]}.

Definition config_with (jitter : bool) : Config :=
  mkConfig models ∅ ∅ ∅ (mkBreakerConfig 5 60) (mkRetry 1000 60000 2 jitter)
    (mkLimits 200000 100000 50000) routes.

Definition config : Config := config_with false.

(** The same with fallbacks for [local_ai]: a model that is not configured,
    then [thinking_ai]. *)
Definition fallback_config : Config :=
  mkConfig models ∅ ∅ {[ "local_ai" := ["missing_ai"; "thinking_ai"] ]}
    (mkBreakerConfig 5 60) (mkRetry 1000 60000 2 false)
    (mkLimits 200000 100000 50000) routes.

(** The providers answer the [n]-th request with the [n]-th scripted
    outcome, at once, and refuse the connection when the script is over. *)
Definition scripted (answers : list (exn + pyval)) (n : nat) (_ : Request) : Response :=
  mkResponse 0 (nth n answers (inl (UpstreamError "connection refused"))).

Definition world (answers : list (exn + pyval)) : World :=
  mkWorld 0 ∅ ∅ (scripted answers) 0 (fun _ => 3 # 4) 0 [].

(** An event loop that runs the coroutines of a batch to the end one after
    the other. *)
Fixpoint gather_in_order (coroutines : list (M Run pyval)) : M Run (list (exn + pyval)) :=
  match coroutines with
  | [] => mret []
  | c :: rest =>
      fun run =>
        match c run with
        | (Ok v, run') => (results ← gather_in_order rest; mret (inr v :: results)) run'
        | (Raise e, run') => (results ← gather_in_order rest; mret (inl e :: results)) run'
        | (Diverge, run') => (Diverge, run')
        end
  end.

Definition two_inline_steps : list Step :=
  [ mkStep (Some "inline")
      [mkTask "thinking_ai" "List benefits of {topic}" (Some "benefits") None];
    mkStep None [mkTask "thinking_ai" "Summarise {benefits}" (Some "summary") None] ].

Definition no_json (_ : string) : planned := JsonInvalid "Expecting value".
Definition one_bad_step (_ : string) : planned :=
  JsonWorkflow [mkStep (Some "sequential") []].
Definition dumps (_ : gmap string pyval) : string := "{}".

(** A breaker for [thinking_ai] that opened when the clock read 0. *)
Definition tripped_world (answers : list (exn + pyval)) : World :=
  mkWorld 0 ∅ {[ "thinking_ai" := mkBreaker 5 60 5 (Some 0%Q) open ]}
    (scripted answers) 0 (fun _ => 3 # 4) 0 [].

Definition greeting_state : WorkflowState :=
  set_variable "n" (PInt 3) (set_variable "name" (PStr "World") empty_state).

Definition always_failing : M Q unit :=
  fun s => (Raise (UpstreamError "503"), (s + 1)%Q).

Definition half_opened : CircuitBreaker := mkBreaker 1 60 1 (Some 0%Q) half_open.

Definition always_fine : M Q unit := fun s => (Ok tt, (s + 1)%Q).

(** A configuration that also has the failure narrator, a base prompt and
    two prompt addons, one of them empty. *)
Definition narrator_config : Config :=
  mkConfig (<[ "ai_workers_failed_ai" := mkModel "openrouter" "demo/narrator"
                                           {[ "temperature" := 1%Q; "top_p" := (1 # 2)%Q ]} ]>
              models)
    {[ "thinking_ai" := "Think step by step." ]}
    {[ "brief" := "Answer briefly."; "void" := EmptyString ]}
    ∅ (mkBreakerConfig 5 60) (mkRetry 1000 60000 2 false)
    (mkLimits 200000 100000 50000) routes.

Definition failing_thrice : list (exn + pyval) :=
  [inl (UpstreamError "500"); inl (UpstreamError "500"); inl (UpstreamError "500")].

Definition greeting_task : Task := mkTask "thinking_ai" "Hi {name}" (Some "greeting") None.

(** A rate-limiting configuration: 120 requests per minute for one provider,
    no figure for the other. *)
Definition limits : gmap string (option Q) :=
  {[ "openrouter" := Some 120%Q; "google_ai" := None ]}.

End Demo.

(** ** Further parts of the orchestrator *)

(** [_initialize_rate_limiters]: [limits] is the ['rate_limiting'] entry of
    the configuration, each provider with its ['requests_per_minute'] when
    it gives one, and [now] the clock reading when the bucket of a provider
    is made. *)
Definition _initialize_rate_limiters (limits : gmap string (option Q)) (now : string -> Q)
    : gmap string TokenBucket :=
  map_imap (fun provider_name entry =>
              let rpm := default 60%Q entry in
              Some (new_bucket rpm (rpm / 60) (now provider_name)))
           limits.

(** A wrapped function that returns wherever it is started. *)
Definition always_returns {S A} (func : M S A) : Prop :=
  forall s, exists a s', func s = (Ok a, s').

(** [failing_calls funcs n]: each function of [funcs] always returns or
    always raises, and [n] of them raise. *)
Inductive failing_calls {S A} : list (M S A) -> nat -> Prop :=
| failing_none : failing_calls [] 0
| failing_raise func funcs n :
    Breaker.always_raises func -> failing_calls funcs n ->
    failing_calls (func :: funcs) (Datatypes.S n)
| failing_return func funcs n :
    always_returns func -> failing_calls funcs n -> failing_calls (func :: funcs) n.

(** [all_fail call names w w']: the models [names], called one after the
    other from the world [w], all raise, and leave the world [w']. *)
Inductive all_fail (call : string -> M World pyval) : list string -> World -> World -> Prop :=
| all_fail_nil w : all_fail call [] w w
| all_fail_cons name names w w1 w' e :
    call name w = (Raise e, w1) -> all_fail call names w1 w' ->
    all_fail call (name :: names) w w'.

(** [breakers_kept cfg w w']: every breaker of [w] is in [w'] as it was, and
    a breaker of [w'] that is not one of [w] is a new one. *)
Definition breakers_kept (cfg : Config) (w w' : World) : Prop :=
  (forall name cb, circuit_breakers w !! name = Some cb ->
                   circuit_breakers w' !! name = Some cb) /\
  (forall name cb, circuit_breakers w' !! name = Some cb ->
                   circuit_breakers w !! name = Some cb \/
                   cb = new_breaker (cfg_failure_threshold (circuit_breaker cfg))
                          (cfg_timeout_seconds (circuit_breaker cfg))).

(** A string of whitespace only. *)
Fixpoint blank (s : string) : bool :=
  match s with
  | EmptyString => true
  | String c s' => PyStr.is_space c && blank s'
  end.

Local Arguments String.append !_ _ : simpl nomatch.

Ltac unfold_monad :=
  unfold mbind, M_bind, bind, mret, M_ret, ret, raise, try_except in *.

(** * Properties *)

(** ** Strings *)

Lemma append_assoc (a b c : string) : (a +:+ b) +:+ c = a +:+ (b +:+ c).
Proof. induction a as [|x a IH]; simpl; [reflexivity | now rewrite IH]. Qed.

Lemma length_append (a b : string) :
  String.length (a +:+ b) = (String.length a + String.length b)%nat.
Proof. induction a as [|x a IH]; simpl; [reflexivity | now rewrite IH]. Qed.

Lemma startswith_append (p s : string) : PyStr.startswith p (p +:+ s) = true.
Proof.
  induction p as [|c p IH]; simpl; [reflexivity |].
  now rewrite Ascii.eqb_refl, IH.
Qed.

Lemma contains_unfold (needle hay : string) :
  PyStr.contains needle hay =
  PyStr.startswith needle hay ||
  match hay with EmptyString => false | String _ hay' => PyStr.contains needle hay' end.
Proof. destruct hay; reflexivity. Qed.

Lemma contains_append (needle pre post : string) :
  PyStr.contains needle (pre +:+ needle +:+ post) = true.
Proof.
  induction pre as [|c pre IH].
  - cbn [String.append]. rewrite contains_unfold, startswith_append. reflexivity.
  - cbn [String.append]. rewrite contains_unfold, IH. apply orb_true_r.
Qed.

Lemma map_chars_append f (a b : string) :
  PyStr.map_chars f (a +:+ b) = PyStr.map_chars f a +:+ PyStr.map_chars f b.
Proof. induction a as [|x a IH]; simpl; [reflexivity | now rewrite IH]. Qed.

Lemma append_nil_r (s : string) : s +:+ EmptyString = s.
Proof. induction s as [|c s IH]; simpl; [reflexivity | now rewrite IH]. Qed.

Lemma occurs_prefix (s t : string) : occurs_in s (s +:+ t).
Proof. exists EmptyString, t. reflexivity. Qed.

Lemma occurs_suffix (s t : string) : occurs_in s (t +:+ s).
Proof. exists t, EmptyString. now rewrite append_nil_r. Qed.

(** ** Placeholders *)

Lemma upto_close_name (n t : string) :
  ~ PyStr.has_char "}" n -> Placeholder.upto_close (n +:+ String "}" t) = Some n.
Proof.
  induction n as [|c n IH]; simpl; intros Hn; [reflexivity |].
  destruct (Ascii.eqb_spec c "}") as [-> | _].
  - exfalso. apply Hn. now left.
  - rewrite IH; [reflexivity |]. intros H. apply Hn. now right.
Qed.

Lemma sub_skip repl (u t : string) :
  Placeholder.sub repl (u +:+ t) (String.length u) = Placeholder.sub repl t 0.
Proof. induction u as [|c u IH]; simpl; [reflexivity | exact IH]. Qed.

Lemma sub_hole repl (n t : string) :
  n <> EmptyString -> ~ PyStr.has_char "}" n ->
  Placeholder.sub repl ("{" +:+ n +:+ "}" +:+ t) 0 = repl n +:+ Placeholder.sub repl t 0.
Proof.
  intros Hne Hn.
  change ("{" +:+ n +:+ "}" +:+ t) with (String "{" (n +:+ String "}" t)).
  cbn [Placeholder.sub Placeholder.match_here].
  rewrite Ascii.eqb_refl, (upto_close_name n t Hn).
  destruct n as [|a n]; [congruence |].
  f_equal.
  change (String a n +:+ String "}" t) with (String a n +:+ ("}" +:+ t)).
  rewrite <- append_assoc.
  replace (S (String.length (String a n))) with (String.length (String a n +:+ "}")).
  - apply sub_skip.
  - rewrite length_append. simpl. lia.
Qed.

Lemma sub_lit repl (s t : string) :
  ~ PyStr.has_char "{" s ->
  Placeholder.sub repl (s +:+ t) 0 = s +:+ Placeholder.sub repl t 0.
Proof.
  induction s as [|c s IH]; intros Hs; [reflexivity |].
  cbn [String.append Placeholder.sub Placeholder.match_here].
  destruct (Ascii.eqb_spec c "{") as [-> | _].
  - exfalso. apply Hs. now left.
  - rewrite IH; [reflexivity |]. intros H. apply Hs. now right.
Qed.

Lemma replace_segments st (segs : list segment) :
  Forall segment_ok segs ->
  replace_variables st (concat_map render segs) = concat_map (expand st) segs.
Proof.
  unfold replace_variables.
  induction 1 as [|sg segs Hsg _ IH]; [reflexivity |].
  cbn [concat_map fold_right]. fold (concat_map render segs) (concat_map (expand st) segs).
  destruct sg as [s | n]; cbn [render expand segment_ok] in *.
  - rewrite sub_lit by assumption. now rewrite IH.
  - destruct Hsg as [Hne Hn].
    rewrite !append_assoc. rewrite sub_hole by assumption.
    rewrite IH. reflexivity.
Qed.

(** C9. [replace_variables] replaces each [{name}] whose variable holds a
    value by [str] of that value and keeps each [{name}] whose variable is
    unset as it is: on a template made of brace-free text and placeholders
    it is the segment-wise expansion; with [name = "World"] the text
    ["Hello {name}"] becomes ["Hello World"], and with [name] unset it is
    returned unchanged. *)
Theorem replace_variables_placeholders :
  (forall st segs, Forall segment_ok segs ->
     replace_variables st (concat_map render segs) = concat_map (expand st) segs) /\
  replace_variables (set_variable "name" (PStr "World") empty_state) "Hello {name}"
    = "Hello World" /\
  (forall st, variables st !! "name" = None ->
     replace_variables st "Hello {name}" = "Hello {name}").
Proof.
  split; [exact replace_segments |]. split; [reflexivity |].
  intros st Hunset.
  change "Hello {name}" with (concat_map render [Lit "Hello "; Hole "name"]) at 1.
  rewrite replace_segments.
  - cbn [concat_map fold_right expand]. unfold get_variable. rewrite Hunset. reflexivity.
  - repeat constructor; cbn; intuition discriminate.
Qed.

Lemma replace_variables_placeholders_witness :
  replace_variables Demo.greeting_state "Hi {name}, {n} of {total}" = "Hi World, 3 of {total}" /\
  replace_variables empty_state "Hello {name}" = "Hello {name}".
Proof.
  split.
  - refine (proj1 replace_variables_placeholders Demo.greeting_state
             [Lit "Hi "; Hole "name"; Lit ", "; Hole "n"; Lit " of "; Hole "total"] _).
    repeat constructor; cbn; intuition discriminate.
  - exact (proj2 (proj2 replace_variables_placeholders) empty_state eq_refl).
Defined.

(** ** Token bucket *)

Local Open Scope Q_scope.

Lemma refill_keeps_balance (now : Q) (b : TokenBucket) :
  0 <= refill_rate b -> last_refill b <= now -> balance_ok b ->
  balance_ok (_refill now b).
Proof.
  unfold balance_ok, _refill; cbn [tokens capacity].
  intros Hrate Hnow [Hlo Hhi].
  assert (0 <= (now - last_refill b) * refill_rate b) by (apply Qmult_le_0_compat; lra).
  split; [| apply Q.le_min_l].
  apply Q.min_glb; lra.
Qed.

Lemma consume_keeps_balance (now n : Q) (b : TokenBucket) :
  0 <= refill_rate b -> last_refill b <= now -> 0 <= n -> balance_ok b ->
  balance_ok (snd (consume now n b)).
Proof.
  intros Hrate Hnow Hn Hb.
  pose proof (refill_keeps_balance now b Hrate Hnow Hb) as [Hlo Hhi].
  unfold consume.
  destruct (Qle_bool n (tokens (_refill now b))) eqn:E; cbn [snd].
  - apply Qle_bool_iff in E. unfold balance_ok; cbn [tokens capacity]. split; lra.
  - split; assumption.
Qed.

Lemma consume_frame (now n : Q) (b : TokenBucket) :
  refill_rate (snd (consume now n b)) = refill_rate b /\
  last_refill (snd (consume now n b)) = now /\
  capacity (snd (consume now n b)) = capacity b.
Proof.
  unfold consume. destruct (Qle_bool n (tokens (_refill now b))); cbn; auto.
Qed.

Lemma consume_all_keeps_balance (calls : list (Q * Q)) (b : TokenBucket) :
  0 <= refill_rate b -> chronological (last_refill b) calls ->
  Forall (fun c => 0 <= snd c) calls -> balance_ok b ->
  Forall (fun r => balance_ok (snd r)) (consume_all calls b).
Proof.
  revert b. induction calls as [|[now n] calls IH]; intros b Hrate Hchron Hn Hb.
  - constructor.
  - cbn [consume_all]. destruct Hchron as [Hnow Hchron].
    inversion Hn as [|? ? Hn0 Hn']; subst. cbn [snd] in Hn0.
    destruct (consume_frame now n b) as (Er & El & _).
    constructor.
    + apply consume_keeps_balance; assumption.
    + apply IH.
      * rewrite Er. assumption.
      * rewrite El. assumption.
      * assumption.
      * apply consume_keeps_balance; assumption.
Qed.

(** C4. For a bucket whose balance lies in [0, capacity], whose refill rate
    is not negative, and a sequence of [consume(n)] calls with amounts
    [n >= 0] at clock readings that do not run backwards, the balance stays
    in [0, capacity] after every call; and any call answers true exactly
    when the refilled balance is at least [n], in which case it takes [n]
    off that balance, and otherwise leaves the refilled bucket as it is. *)
Theorem token_bucket_consume (b0 : TokenBucket) (calls : list (Q * Q)) :
  balance_ok b0 -> 0 <= refill_rate b0 ->
  chronological (last_refill b0) calls ->
  Forall (fun c => 0 <= snd c) calls ->
  Forall (fun r => balance_ok (snd r)) (consume_all calls b0) /\
  (forall now n b,
     (fst (consume now n b) = true <-> n <= tokens (_refill now b)) /\
     (fst (consume now n b) = true ->
        tokens (snd (consume now n b)) = tokens (_refill now b) - n) /\
     (fst (consume now n b) = false -> snd (consume now n b) = _refill now b)).
Proof.
  intros Hb Hrate Hchron Hn. split.
  - apply consume_all_keeps_balance; assumption.
  - intros now n b. unfold consume.
    destruct (Qle_bool n (tokens (_refill now b))) eqn:E; cbn [fst snd tokens].
    + apply Qle_bool_iff in E. repeat split; auto; discriminate.
    + repeat split; try discriminate; auto.
      intros H. apply Qle_bool_iff in H. congruence.
Qed.

Lemma token_bucket_consume_witness :
  Forall (fun r => balance_ok (snd r))
    (consume_all [(1, 1); (2, 5); (3, 1)] (new_bucket 2 (1 # 2) 0)).
Proof.
  refine (proj1 (token_bucket_consume (new_bucket 2 (1 # 2) 0) [(1, 1); (2, 5); (3, 1)] _ _ _ _)).
  - split; cbn; lra.
  - cbn; lra.
  - cbn; repeat split; lra.
  - repeat constructor; cbn; lra.
Defined.

(** ** Circuit breaker *)

Section BreakerFacts.
Context {S A : Type} (time : S -> Q).





End BreakerFacts.





(** ** Retry controller *)


Section RetryFacts.
Variable cfg : Config.

(** A failed attempt that is not the last one: sleep, then go on. *)
Lemma retry_from_failure func max_retries attempt todo w e w1 :
  func w = (Raise e, w1) ->
  (attempt =? max_retries - 1)%nat = false ->
  exists w2,
    retry_from cfg func max_retries attempt (S todo) w
      = retry_from cfg func max_retries (S attempt) todo w2 /\
    trace w2 = (trace w1 ++ [EvSleep (slept_delay (retry_config cfg) attempt w1)])%list /\
    rate_limiters w2 = rate_limiters w1 /\
    circuit_breakers w2 = circuit_breakers w1 /\
    requests_made w2 = requests_made w1 /\
    provider w2 = provider w1.
Proof.
  intros Hf Hnot. cbn [retry_from]. unfold try_except at 1. rewrite Hf, Hnot.
  unfold slept_delay, jittered.
  destruct (jitter_enabled (retry_config cfg)); unfold_monad; cbn;
    eexists; (split; [reflexivity |]); cbn; repeat split.
Qed.

(** The last attempt does not sleep: its error goes to the caller. *)
Lemma retry_from_last func max_retries attempt todo w e w1 :
  func w = (Raise e, w1) ->
  (attempt =? max_retries - 1)%nat = true ->
  retry_from cfg func max_retries attempt (S todo) w = (Raise e, w1).
Proof.
  intros Hf Hlast. cbn [retry_from]. unfold try_except. rewrite Hf, Hlast. reflexivity.
Qed.
End RetryFacts.

(** C6, as the code has it.  The delay slept before retry attempt [k >= 1],
    after the failure of attempt [k - 1], is
    [min(base_delay * exponential_base^(k-1), max_delay)] when jitter is
    off; when jitter is on it is that value times [0.5 + r] for the draw
    [r] of [random.random()], a factor in [0.5, 1.5) for every draw
    [0 <= r < 1]. *)
Theorem retry_backoff_delay (cfg : Config) (func : M World pyval)
    (max_retries k todo : nat) (w w1 : World) (e : exn) :
  (1 <= k)%nat -> (k < max_retries)%nat -> func w = (Raise e, w1) ->
  let rc := retry_config cfg in
  let capped :=
    Qmin ((base_delay_ms rc / 1000) * exponential_base rc ^ Z.of_nat (k - 1))
         (max_delay_ms rc / 1000) in
  exists d w2,
    retry_from cfg func max_retries (k - 1) (S todo) w
      = retry_from cfg func max_retries k todo w2 /\
    trace w2 = (trace w1 ++ [EvSleep d])%list /\
    (jitter_enabled rc = false -> d = capped) /\
    (jitter_enabled rc = true ->
       let r := random w1 (draws w1) in
       (0 <= r)%Q -> (r < 1)%Q ->
       d = (capped * ((1 # 2) + r))%Q /\ ((1 # 2) <= (1 # 2) + r)%Q /\ ((1 # 2) + r < 3 # 2)%Q).
Proof.
  intros Hk Hne Hf rc capped.
  destruct (retry_from_failure cfg func max_retries (k - 1) todo w e w1 Hf)
    as (w2 & Hrun & Htr & _).
  { apply Nat.eqb_neq. lia. }
  exists (slept_delay rc (k - 1) w1), w2.
  replace (S (k - 1)) with k in Hrun by lia.
  split; [exact Hrun |]. split; [exact Htr |].
  unfold slept_delay, jittered, backoff_delay. fold rc. fold capped.
  split; intros ->; [reflexivity |].
  intros Hr0 Hr1. split; [reflexivity |]. split; lra.
Qed.

Lemma retry_backoff_delay_witness :
  exists d w2,
    retry_from (Demo.config_with true) (raise (UpstreamError "503")) 3 0 3 (Demo.world [])
      = retry_from (Demo.config_with true) (raise (UpstreamError "503")) 3 1 2 w2 /\
    trace w2 = [EvSleep d] /\ (d == 5 # 4)%Q.
Proof.
  destruct (retry_backoff_delay (Demo.config_with true) (raise (UpstreamError "503"))
              3 1 2 (Demo.world []) (Demo.world []) (UpstreamError "503")
              ltac:(lia) ltac:(lia) eq_refl) as (d & w2 & Hrun & Htr & _ & Hj).
  exists d, w2. split; [exact Hrun |]. split; [exact Htr |].
  destruct (Hj eq_refl) as (-> & _); [cbn; lra | cbn; lra |]. reflexivity.
Defined.

(** C6 as stated fails: with jitter on and a draw of 0.75 the first delay is
    1.25 times the capped delay, a factor above 1.0. *)
Lemma jitter_factor_above_one :
  exists d rest,
    sleeps (trace (snd (_retry_with_backoff (Demo.config_with true)
                          (raise (UpstreamError "503")) 3 (Demo.world []))))
      = EvSleep d :: rest /\
    ~ (d <= 1 * backoff_delay (retry_config (Demo.config_with true)) 0)%Q.
Proof.
  eexists _, _. split; [vm_compute; reflexivity |].
  vm_compute. intros H. apply H. reflexivity.
Qed.

(** ** Categorizer *)

Lemma occurs_contains (needle hay : string) :
  occurs_in needle hay -> PyStr.contains needle hay = true.
Proof. intros (pre & post & ->). apply contains_append. Qed.

Lemma occurs_lower (needle hay : string) :
  occurs_in needle hay -> occurs_in (PyStr.lower needle) (PyStr.lower hay).
Proof.
  intros (pre & post & ->). exists (PyStr.lower pre), (PyStr.lower post).
  unfold PyStr.lower. now rewrite !map_chars_append.
Qed.

(** C2, as the code has it.  For a message in which the marker [image:] or
    [img:] occurs, in any letter case, and context tokens that exceed none
    of the deny and force thresholds, [categorize_request] returns ["L"]
    and calls no model; this holds in particular for every message that
    contains ["image:"]. *)
Theorem categorize_image_marker (cfg : Config) (fuel : nat) (user_message : string)
    (context_tokens : Z) (w : World) :
  (context_tokens <= deny_request (context_limits cfg))%Z ->
  (context_tokens <= force_gemini_pro (context_limits cfg))%Z ->
  (context_tokens <= force_thinking_ai (context_limits cfg))%Z ->
  occurs_in "image:" (PyStr.lower user_message) \/
  occurs_in "img:" (PyStr.lower user_message) \/
  occurs_in "image:" user_message ->
  categorize_request cfg fuel user_message context_tokens w = (Ok "L", w).
Proof.
  intros Hdeny Hpro Hthink Hmark.
  unfold categorize_request.
  rewrite (proj2 (Z.ltb_ge _ _) Hdeny), (proj2 (Z.ltb_ge _ _) Hpro),
    (proj2 (Z.ltb_ge _ _) Hthink).
  replace (_contains_image user_message) with true; [reflexivity |].
  symmetry. unfold _contains_image. apply orb_true_iff.
  destruct Hmark as [H | [H | H]].
  - left. now apply occurs_contains.
  - right. now apply occurs_contains.
  - left. apply occurs_contains. exact (occurs_lower "image:" user_message H).
Qed.

Lemma categorize_image_marker_witness :
  categorize_request Demo.config 3 "see IMAGE: cat.png" 0 (Demo.world [])
    = (Ok "L", Demo.world []).
Proof.
  apply categorize_image_marker; cbn; try lia.
  left. exists "see ", " cat.png". reflexivity.
Defined.

(** C2 as stated fails: a message with ["image:"] is categorized ["L"], not
    ["H"]. *)
Lemma image_marker_not_high :
  fst (categorize_request Demo.config 3 "image: cat.png" 0 (Demo.world [])) = Ok "L" /\
  fst (categorize_request Demo.config 3 "image: cat.png" 0 (Demo.world [])) <> Ok "H".
Proof. split; [reflexivity | discriminate]. Qed.

(** ** Workflow executor *)

Section ExecutorFacts.
Variable cfg : Config.
Variable gather : list (M Run pyval) -> M Run (list (exn + pyval)).

Lemma run_inline_app fuel (a b : list Task) (run : Run) :
  run_inline cfg fuel (a ++ b)%list run
    = (run_inline cfg fuel a;; run_inline cfg fuel b) run.
Proof.
  revert run. induction a as [|t a IH]; intros run; cbn [app run_inline].
  - reflexivity.
  - unfold_monad. destruct (_execute_task cfg fuel t run) as [[v | e |] run'];
      [apply IH | reflexivity | reflexivity].
Qed.

Lemma execute_step_inline fuel (step : Step) :
  default "inline" (step_type step) = "inline" ->
  execute_step cfg gather fuel step = run_inline cfg fuel (step_tasks step).
Proof. unfold execute_step. intros ->. reflexivity. Qed.

Lemma execute_workflow_inline fuel (steps : list Step) (run : Run) :
  Forall (fun step => default "inline" (step_type step) = "inline") steps ->
  execute_workflow cfg gather fuel steps run
    = run_inline cfg fuel (concat (map step_tasks steps)) run.
Proof.
  intros Hall. revert run.
  induction Hall as [|step steps Hstep _ IH]; intros run; [reflexivity |].
  cbn [execute_workflow map concat]. rewrite run_inline_app.
  rewrite (execute_step_inline fuel step Hstep).
  unfold_monad.
  destruct (run_inline cfg fuel (step_tasks step) run) as [[[] | e |] run']; auto.
Qed.

End ExecutorFacts.




(** ** Tasks *)

Lemma in_world_state {A} (m : M World A) (st : WorkflowState) (w : World) :
  fst (snd (in_world m (st, w))) = st.
Proof. unfold in_world. destruct (m w) as [r w']. reflexivity. Qed.

(** C10. A task without an ['output_variable'], or with an empty one, leaves
    the workflow state as it was, whether the model call returns, the failure
    narrator answers in its place, or the error goes on to the caller. *)
Theorem execute_task_without_output_variable (cfg : Config) (fuel : nat) (task : Task)
    (st : WorkflowState) (w : World) :
  task_output_variable task = None \/ task_output_variable task = Some EmptyString ->
  fst (snd (_execute_task cfg fuel task (st, w))) = st /\
  variables (fst (snd (_execute_task cfg fuel task (st, w)))) = variables st.
Proof.
  intros Hout.
  assert (Hnone : names_variable (task_output_variable task) = None)
    by (destruct Hout as [-> | ->]; reflexivity).
  assert (Hst : fst (snd (_execute_task cfg fuel task (st, w))) = st);
    [| split; [exact Hst | now rewrite Hst]].
  unfold _execute_task. rewrite Hnone.
  unfold_monad. unfold read_state, in_world.
  destruct (call_ai_model cfg fuel (task_model task) _ _ None w) as [[v | e |] w1];
    cbn; try reflexivity.
  destruct (call_ai_model cfg fuel "ai_workers_failed_ai" _ _ None w1) as [[v | e' |] w2];
    reflexivity.
Qed.

Lemma execute_task_without_output_variable_witness :
  fst (snd (_execute_task Demo.config 3 (mkTask "thinking_ai" "Hi {name}" None None)
              (Demo.greeting_state, Demo.world [inr (PStr "hello")])))
  = Demo.greeting_state.
Proof.
  apply (execute_task_without_output_variable Demo.config 3
           (mkTask "thinking_ai" "Hi {name}" None None)).
  left. reflexivity.
Defined.

(** ** Model invoker *)

Section InvokerFacts.
Variable cfg : Config.

Lemma make_request_unknown_provider fuel provider_name model prompt system config w :
  provider_name <> "openrouter" -> provider_name <> "google_ai" ->
  rate_limiters w !! provider_name = None ->
  _make_request fuel provider_name model prompt system config w
    = (Raise (ValueError ("Unknown provider: " +:+ provider_name)), w).
Proof.
  intros Ho Hg Hlim. unfold _make_request. unfold_monad.
  replace (await_tokens fuel provider_name w) with (Ok tt, w : World)
    by (destruct fuel; cbn; now rewrite Hlim).
  destruct (String.eqb_spec provider_name "openrouter"); [contradiction |].
  destruct (String.eqb_spec provider_name "google_ai"); [contradiction |].
  reflexivity.
Qed.

Lemma get_circuit_breaker_frame model_name w :
  exists cb w0,
    _get_circuit_breaker cfg model_name w = (Ok cb, w0) /\
    trace w0 = trace w /\ rate_limiters w0 = rate_limiters w /\
    requests_made w0 = requests_made w.
Proof.
  unfold _get_circuit_breaker.
  destruct (circuit_breakers w !! model_name); eexists _, _; repeat split.
Qed.
End InvokerFacts.

(** C7, as the code has it.  For a configured model whose provider is none
    of the recognized kinds, and for which no rate limiter is registered,
    each attempt raises the unknown-provider error without a provider
    request, and the retry controller treats it as any other failure: the
    error leaves the [try] of [call_ai_model] only after three attempts and
    two backoff sleeps, and without configured fallbacks it is the error of
    [call_ai_model]. *)
Theorem unknown_provider_is_retried (cfg : Config) (fuel : nat) (model_name : string)
    (mc : ModelConfig) (prompt : string) (config : option CallConfig)
    (system_prompt : option string) (w : World) :
  ai_models cfg !! model_name = Some mc ->
  mc_provider mc <> "openrouter" -> mc_provider mc <> "google_ai" ->
  rate_limiters w !! mc_provider mc = None ->
  exists d0 d1 w',
    call_primary cfg fuel model_name mc prompt config system_prompt w
      = (Raise (ValueError ("Unknown provider: " +:+ mc_provider mc)), w') /\
    trace w' = (trace w ++ [EvSleep d0; EvSleep d1])%list /\
    requests_made w' = requests_made w /\
    (model_fallbacks cfg !! model_name = None ->
     call_ai_model cfg (S fuel) model_name prompt config system_prompt w
       = (Raise (ValueError ("Unknown provider: " +:+ mc_provider mc)), w')).
Proof.
  intros Hmodel Ho Hg Hlim.
  destruct (get_circuit_breaker_frame cfg model_name w) as (cb & w0 & Hcb & Ht0 & Hl0 & Hr0).
  set (func := _make_request fuel (mc_provider mc) (mc_model mc) prompt
                 (full_system_prompt cfg model_name config system_prompt)
                 (final_config mc config)).
  assert (Hfail : forall v, rate_limiters v = rate_limiters w ->
            func v = (Raise (ValueError ("Unknown provider: " +:+ mc_provider mc)), v)).
  { intros v Hv. apply make_request_unknown_provider; try assumption. now rewrite Hv. }
  destruct (retry_from_failure cfg func 3 0 2 w0 _ w0 (Hfail w0 Hl0) eq_refl)
    as (w1 & Hrun1 & Ht1 & Hl1 & _ & Hr1 & _).
  assert (Hlw1 : rate_limiters w1 = rate_limiters w) by congruence.
  destruct (retry_from_failure cfg func 3 1 1 w1 _ w1 (Hfail w1 Hlw1) eq_refl)
    as (w2 & Hrun2 & Ht2 & Hl2 & _ & Hr2 & _).
  assert (Hlw2 : rate_limiters w2 = rate_limiters w) by congruence.
  pose proof (retry_from_last cfg func 3 2 0 w2 _ w2 (Hfail w2 Hlw2) eq_refl) as Hrun3.
  assert (Hprimary :
            call_primary cfg fuel model_name mc prompt config system_prompt w
              = (Raise (ValueError ("Unknown provider: " +:+ mc_provider mc)), w2)).
  { unfold call_primary, _retry_with_backoff. fold func. unfold_monad.
    rewrite Hcb, Hrun1, Hrun2. exact Hrun3. }
  eexists _, _, w2. split; [exact Hprimary |]. split; [| split].
  - rewrite Ht2, Ht1, Ht0, <- app_assoc. reflexivity.
  - congruence.
  - intros Hfb. cbn [call_ai_model]. rewrite Hmodel. unfold try_except at 1.
    rewrite Hprimary, Hfb. reflexivity.
Qed.

Lemma unknown_provider_is_retried_witness :
  exists d0 d1 w',
    call_ai_model Demo.config 3 "local_ai" "ping" None None (Demo.world [])
      = (Raise (ValueError "Unknown provider: acme"), w') /\
    trace w' = [EvSleep d0; EvSleep d1].
Proof.
  destruct (unknown_provider_is_retried Demo.config 2 "local_ai"
              (mkModel "acme" "acme-1" ∅) "ping" None None (Demo.world []))
    as (d0 & d1 & w' & _ & Htr & _ & Hcall);
    [reflexivity | discriminate | discriminate | reflexivity |].
  exists d0, d1, w'. split; [apply Hcall; reflexivity | exact Htr].
Defined.

(** C7 as stated fails: the unknown-provider error of [local_ai] comes after
    two backoff sleeps of 1 and 2 seconds. *)
Lemma unknown_provider_sleeps :
  fst (call_ai_model Demo.config 3 "local_ai" "ping" None None (Demo.world []))
    = Raise (ValueError "Unknown provider: acme") /\
  sleeps (trace (snd (call_ai_model Demo.config 3 "local_ai" "ping" None None (Demo.world []))))
    <> [].
Proof. split; [reflexivity | vm_compute; discriminate]. Qed.

(** C1 fails on the code.  The breaker of [thinking_ai] is open and its
    timeout of 60 seconds has not passed, so that [CircuitBreaker.call] would
    raise at once; [call_ai_model] sends the provider request all the same
    and returns its answer, the breaker being left as it was. *)
Lemma open_breaker_is_not_consulted :
  let w := Demo.tripped_world [inr (PStr "pong")] in
  let r := call_ai_model Demo.config 3 "thinking_ai" "ping" None None w in
  (forall func : M World pyval,
     Breaker.call clock func (mkBreaker 5 60 5 (Some 0%Q) open, w)
       = (Raise breaker_open_error, (mkBreaker 5 60 5 (Some 0%Q) open, w))) /\
  fst r = Ok (PStr "pong") /\
  requests (trace (snd r))
    = [EvRequest (ChatCompletion "demo/thinking" None "ping" (7 # 10) (2000 # 1) (95 # 100))] /\
  circuit_breakers (snd r) !! "thinking_ai" = Some (mkBreaker 5 60 5 (Some 0%Q) open).
Proof.
  cbv zeta. split; [intros func; reflexivity |].
  split; [reflexivity |]. split; [reflexivity |]. vm_compute. reflexivity.
Qed.

(** ** Request router *)

Section RouterFacts.
Variable cfg : Config.
Variable gather : list (M Run pyval) -> M Run (list (exn + pyval)).
Variable json_loads : string -> planned.
Variable json_dumps : gmap string pyval -> string.

(** The high-tier path up to the plan. *)
Lemma process_request_high fuel user_message context_tokens routing fast_model model
    fast_response workflow_json w w1 w2 w3 :
  categorize_request cfg fuel user_message context_tokens w = (Ok "H", w1) ->
  categorization cfg !! "H" = Some routing ->
  routing !! "fast_response_model" = Some fast_model ->
  routing !! "model" = Some model ->
  call_ai_model cfg fuel fast_model (acknowledge_prompt user_message)
    (Some (temperature (7 # 10))) None w1 = (Ok fast_response, w2) ->
  call_ai_model cfg fuel model (workflow_prompt user_message)
    (Some (temperature (7 # 10))) None w2 = (Ok workflow_json, w3) ->
  process_request cfg gather json_loads json_dumps fuel user_message context_tokens w
    = run_plan cfg gather json_loads json_dumps fuel user_message fast_response
        workflow_json w3.
Proof.
  intros Hcat Hroute Hfast Hmodel Hack Hplan.
  unfold process_request, routing_entry. unfold_monad.
  rewrite Hcat, Hroute. cbn [String.eqb Ascii.eqb Bool.eqb orb].
  rewrite Hfast, Hack, Hmodel, Hplan. reflexivity.
Qed.
End RouterFacts.




(** * Further properties *)

(** ** Workflow state *)

(** X1. A variable that was set reads back as the value set, the other
    variables read as before, and setting a variable again keeps only the
    last value. *)
Theorem set_variable_get_variable (st : WorkflowState) (name other : string)
    (value value' : pyval) :
  get_variable (set_variable name value st) name = value /\
  (other <> name ->
   get_variable (set_variable name value st) other = get_variable st other) /\
  set_variable name value' (set_variable name value st) = set_variable name value' st.
Proof.
  unfold get_variable, set_variable; cbn [variables metadata]. split; [| split].
  - now rewrite lookup_insert_eq.
  - intros Hne. now rewrite lookup_insert_ne by congruence.
  - now rewrite insert_insert_eq.
Qed.

Lemma set_variable_get_variable_witness :
  get_variable (set_variable "n" (PInt 7) Demo.greeting_state) "name" = PStr "World".
Proof.
  rewrite (proj1 (proj2 (set_variable_get_variable Demo.greeting_state "n" "name"
                           (PInt 7) PNone))) by discriminate.
  reflexivity.
Defined.

Lemma upto_close_none (s : string) :
  ~ PyStr.has_char "}" s -> Placeholder.upto_close s = None.
Proof.
  induction s as [|c s IH]; cbn; intros Hs; [reflexivity |].
  destruct (Ascii.eqb_spec c "}") as [-> | _]; [exfalso; apply Hs; now left |].
  rewrite IH; [reflexivity | intros H; apply Hs; now right].
Qed.

(** X2. A text without a closing brace has no placeholder: it is returned
    as it is in every state, opening braces included. *)
Theorem replace_variables_without_close (st : WorkflowState) (text : string) :
  ~ PyStr.has_char "}" text -> replace_variables st text = text.
Proof.
  unfold replace_variables. induction text as [|c text IH]; intros Hs; [reflexivity |].
  cbn [Placeholder.sub Placeholder.match_here].
  rewrite upto_close_none by (intros H; apply Hs; now right).
  rewrite IH by (intros H; apply Hs; now right).
  destruct (Ascii.eqb c "{"); reflexivity.
Qed.

Lemma replace_variables_without_close_witness :
  replace_variables Demo.greeting_state "Hi {name, {n" = "Hi {name, {n".
Proof.
  apply replace_variables_without_close. cbn. intuition discriminate.
Defined.

(** ** Extraction of the JSON text *)

Lemma has_char_append (c : ascii) (a b : string) :
  PyStr.has_char c (a +:+ b) <-> PyStr.has_char c a \/ PyStr.has_char c b.
Proof. induction a as [|x a IH]; cbn; [tauto | rewrite IH; tauto]. Qed.

Lemma has_char_lstrip (c : ascii) (s : string) :
  PyStr.has_char c (PyStr.lstrip s) -> PyStr.has_char c s.
Proof.
  induction s as [|x s IH]; cbn; [tauto |].
  destruct (PyStr.is_space x); cbn; tauto.
Qed.

Lemma has_char_drop (c : ascii) (n : nat) (s : string) :
  PyStr.has_char c (ExtractJson.drop n s) -> PyStr.has_char c s.
Proof.
  revert s. induction n as [|n IH]; intros [|x s]; cbn; auto.
Qed.

Lemma startswith_has_char (c : ascii) (p s : string) :
  PyStr.startswith (String c p) s = true -> PyStr.has_char c s.
Proof.
  destruct s as [|x s]; cbn; [discriminate |].
  destruct (Ascii.eqb_spec c x) as [-> | _]; [now left | discriminate].
Qed.

Lemma fenced_here_needs_fence (s : string) :
  ~ PyStr.has_char "`" s -> ExtractJson.fenced_here s = None.
Proof.
  intros Hs. unfold ExtractJson.fenced_here.
  destruct (PyStr.startswith ExtractJson.fence s) eqn:E; [| reflexivity].
  exfalso. apply Hs. exact (startswith_has_char _ _ _ E).
Qed.

Lemma search_fenced_needs_fence (s : string) :
  ~ PyStr.has_char "`" s -> ExtractJson.search_fenced s = None.
Proof.
  induction s as [|c s IH]; intros Hs.
  - reflexivity.
  - cbn [ExtractJson.search_fenced]. rewrite fenced_here_needs_fence by assumption.
    apply IH. intros H. apply Hs. now right.
Qed.

Lemma search_raw_needs_open (s : string) :
  ~ PyStr.has_char "{" s -> ExtractJson.search_raw s = None.
Proof.
  induction s as [|c s IH]; intros Hs; [reflexivity |].
  cbn. destruct (Ascii.eqb_spec c "{") as [-> | _]; [exfalso; apply Hs; now left |].
  apply IH. intros H. apply Hs. now right.
Qed.

Lemma upto_last_close_none (s : string) :
  ~ PyStr.has_char "}" s -> ExtractJson.upto_last_close s = None.
Proof.
  induction s as [|c s IH]; intros Hs; [reflexivity |].
  cbn. rewrite IH by (intros H; apply Hs; now right).
  destruct (Ascii.eqb_spec c "}") as [-> | _]; [exfalso; apply Hs; now left | reflexivity].
Qed.

Lemma upto_last_close_span (mid post : string) :
  ~ PyStr.has_char "}" post ->
  ExtractJson.upto_last_close (mid +:+ "}" +:+ post) = Some (mid +:+ "}").
Proof.
  intros Hpost. induction mid as [|c mid IH]; simpl in *.
  - now rewrite upto_last_close_none.
  - now rewrite IH.
Qed.

Lemma search_raw_span (pre mid post : string) :
  ~ PyStr.has_char "{" pre -> ~ PyStr.has_char "}" post ->
  ExtractJson.search_raw (pre +:+ "{" +:+ mid +:+ "}" +:+ post)
    = Some ("{" +:+ mid +:+ "}").
Proof.
  intros Hpre Hpost. induction pre as [|c pre IH].
  - pose proof (upto_last_close_span mid post Hpost) as H. simpl in *. now rewrite H.
  - simpl in *.
    destruct (Ascii.eqb_spec c "{") as [-> | _]; [exfalso; apply Hpre; now left |].
    apply IH. intros H. apply Hpre. now right.
Qed.

Lemma fenced_body_needs_open (r : string) :
  ~ PyStr.has_char "{" r -> ExtractJson.fenced_body r = None.
Proof.
  intros Hr. unfold ExtractJson.fenced_body.
  destruct (PyStr.lstrip r) as [|a r'] eqn:E; [reflexivity |].
  destruct (Ascii.eqb_spec a "{") as [-> | _]; [| reflexivity].
  exfalso. apply Hr. apply has_char_lstrip. rewrite E. now left.
Qed.

Lemma search_fenced_needs_open (s : string) :
  ~ PyStr.has_char "{" s -> ExtractJson.search_fenced s = None.
Proof.
  assert (Hhere : forall t, ~ PyStr.has_char "{" t -> ExtractJson.fenced_here t = None).
  { intros t Ht. unfold ExtractJson.fenced_here.
    destruct (PyStr.startswith ExtractJson.fence t); [| reflexivity].
    rewrite (fenced_body_needs_open (ExtractJson.drop 3 t))
      by (intros H; apply Ht; exact (has_char_drop _ _ _ H)).
    destruct (PyStr.startswith "json" _); [| reflexivity].
    rewrite fenced_body_needs_open; [reflexivity |].
    intros H. apply Ht. apply (has_char_drop _ 3). exact (has_char_drop _ _ _ H). }
  induction s as [|c s IH]; intros Hs.
  - reflexivity.
  - cbn [ExtractJson.search_fenced]. rewrite Hhere by assumption.
    apply IH. intros H. apply Hs. now right.
Qed.

(** X3. A text without an opening brace holds no JSON object and is
    returned whole; in a text without a code fence, the result is the span
    from the first opening brace to the last closing brace. *)
Theorem extract_json_raw (pre mid post text : string) :
  (~ PyStr.has_char "{" text -> _extract_json text = text) /\
  (~ PyStr.has_char "`" (pre +:+ "{" +:+ mid +:+ "}" +:+ post) ->
   ~ PyStr.has_char "{" pre -> ~ PyStr.has_char "}" post ->
   _extract_json (pre +:+ "{" +:+ mid +:+ "}" +:+ post) = "{" +:+ mid +:+ "}").
Proof.
  split.
  - intros Hs. unfold _extract_json.
    now rewrite search_fenced_needs_open, search_raw_needs_open.
  - intros Hfence Hpre Hpost. unfold _extract_json.
    rewrite search_fenced_needs_fence by assumption.
    now rewrite search_raw_span.
Qed.

Lemma extract_json_raw_witness :
  _extract_json "Plan: {a: {b: 1}} done" = "{a: {b: 1}}" /\
  _extract_json "no plan, sorry" = "no plan, sorry".
Proof.
  split.
  - refine (proj2 (extract_json_raw "Plan: " "a: {b: 1}" " done" EmptyString) _ _ _);
      cbn; intuition discriminate.
  - refine (proj1 (extract_json_raw EmptyString EmptyString EmptyString "no plan, sorry") _);
      cbn; intuition discriminate.
Defined.

Lemma lstrip_blank (ws s : string) :
  blank ws = true -> PyStr.lstrip (ws +:+ s) = PyStr.lstrip s.
Proof.
  induction ws as [|c ws IH]; cbn; [reflexivity |].
  intros H. apply andb_true_iff in H as [Hc Hws]. rewrite Hc. now apply IH.
Qed.

Lemma startswith_fence_head (c : ascii) (s : string) :
  c <> "`"%char -> PyStr.startswith ExtractJson.fence (String c s) = false.
Proof.
  intros Hc. unfold ExtractJson.fence. cbn [PyStr.startswith].
  destruct (Ascii.eqb_spec "`" c) as [<- | _]; [congruence | reflexivity].
Qed.

(** The first character of [inner ++ "}" ++ t] that is no whitespace is no
    backtick when [inner] has none. *)
Lemma no_fence_ahead (inner t : string) :
  ~ PyStr.has_char "`" inner ->
  PyStr.startswith ExtractJson.fence (PyStr.lstrip (inner +:+ String "}" t)) = false.
Proof.
  induction inner as [|c inner IH]; intros Hi.
  - reflexivity.
  - cbn [String.append PyStr.lstrip].
    destruct (PyStr.is_space c).
    + apply IH. intros H. apply Hi. now right.
    + apply startswith_fence_head. intros ->. apply Hi. now left.
Qed.

Lemma lazy_close_first_fence (inner ws post : string) :
  ~ PyStr.has_char "`" inner -> blank ws = true ->
  ExtractJson.lazy_close (inner +:+ String "}" (ws +:+ ExtractJson.fence +:+ post))
    = Some (inner +:+ "}").
Proof.
  intros Hi Hws. induction inner as [|c inner IH].
  - cbn [String.append ExtractJson.lazy_close].
    rewrite lstrip_blank by assumption.
    rewrite Ascii.eqb_refl. reflexivity.
  - cbn [String.append ExtractJson.lazy_close].
    rewrite no_fence_ahead by (intros H; apply Hi; now right).
    rewrite andb_false_r.
    rewrite IH by (intros H; apply Hi; now right). reflexivity.
Qed.

Lemma fenced_body_object (ws1 inner ws2 post : string) :
  blank ws1 = true -> ~ PyStr.has_char "`" inner -> blank ws2 = true ->
  ExtractJson.fenced_body
    (ws1 +:+ String "{" (inner +:+ String "}" (ws2 +:+ ExtractJson.fence +:+ post)))
    = Some (String "{" (inner +:+ "}")).
Proof.
  intros H1 Hi H2. unfold ExtractJson.fenced_body.
  rewrite lstrip_blank by assumption.
  cbn [PyStr.lstrip]. change (PyStr.is_space "{") with false. cbn iota.
  rewrite Ascii.eqb_refl.
  now rewrite lazy_close_first_fence.
Qed.

Lemma search_fenced_skip (pre s : string) :
  ~ PyStr.has_char "`" pre ->
  ExtractJson.search_fenced (pre +:+ s) = ExtractJson.search_fenced s.
Proof.
  induction pre as [|c pre IH]; intros Hp; [reflexivity |].
  cbn [String.append ExtractJson.search_fenced].
  replace (ExtractJson.fenced_here (String c (pre +:+ s))) with (@None string).
  - apply IH. intros H. apply Hp. now right.
  - symmetry. unfold ExtractJson.fenced_here.
    rewrite startswith_fence_head; [reflexivity |].
    intros ->. apply Hp. now left.
Qed.

(** X4. A JSON object inside a code fence, tagged [json] or not, is what
    [_extract_json] returns, whatever braces the prose around the fence has:
    the prose before the fence must hold no backtick, and the object none
    either. *)
Theorem extract_json_fenced (pre tag ws1 inner ws2 post : string) :
  tag = "json" \/ tag = EmptyString ->
  ~ PyStr.has_char "`" pre -> blank ws1 = true ->
  ~ PyStr.has_char "`" inner -> blank ws2 = true ->
  _extract_json (pre +:+ ExtractJson.fence +:+ tag +:+ ws1 +:+ "{" +:+ inner +:+ "}" +:+
                 ws2 +:+ ExtractJson.fence +:+ post)
    = "{" +:+ inner +:+ "}".
Proof.
  intros Htag Hpre H1 Hi H2. unfold _extract_json.
  rewrite search_fenced_skip by assumption.
  set (body := ws1 +:+ String "{" (inner +:+ String "}" (ws2 +:+ ExtractJson.fence +:+ post))).
  change (ws1 +:+ "{" +:+ inner +:+ "}" +:+ ws2 +:+ ExtractJson.fence +:+ post) with body.
  change ("{" +:+ inner +:+ "}") with (String "{" (inner +:+ "}")).
  assert (Hbody : ExtractJson.fenced_body body = Some (String "{" (inner +:+ "}")))
    by (now apply fenced_body_object).
  assert (Hhere : ExtractJson.fenced_here (ExtractJson.fence +:+ tag +:+ body)
                  = Some (String "{" (inner +:+ "}"))).
  { unfold ExtractJson.fenced_here.
    destruct Htag as [-> | ->].
    - change (ExtractJson.drop 3 (ExtractJson.fence +:+ "json" +:+ body))
        with ("json" +:+ body).
      change (ExtractJson.drop 4 ("json" +:+ body)) with body.
      change (PyStr.startswith ExtractJson.fence (ExtractJson.fence +:+ "json" +:+ body))
        with true.
      change (PyStr.startswith "json" ("json" +:+ body)) with true.
      cbn iota. now rewrite Hbody.
    - change (ExtractJson.drop 3 (ExtractJson.fence +:+ EmptyString +:+ body)) with body.
      change (PyStr.startswith ExtractJson.fence (ExtractJson.fence +:+ EmptyString +:+ body))
        with true.
      cbn iota.
      destruct (PyStr.startswith "json" body) eqn:E; [| exact Hbody].
      exfalso. unfold body in E. destruct ws1 as [|c ws1].
      + cbn in E. discriminate.
      + cbn [blank] in H1. apply andb_true_iff in H1 as [Hc _].
        cbn [String.append PyStr.startswith] in E.
        apply andb_true_iff in E as [Ej _].
        apply Ascii.eqb_eq in Ej. subst c. discriminate. }
  change (ExtractJson.fence +:+ tag +:+ body)
    with (String "`" (String "`" (String "`" (tag +:+ body)))) in *.
  cbn [ExtractJson.search_fenced]. now rewrite Hhere.
Qed.

Lemma extract_json_fenced_witness :
  _extract_json ("Here {is} it: ```json" +:+ nl +:+ "{a: {b: 1}}" +:+ nl +:+ "``` {bye}")
    = "{a: {b: 1}}".
Proof.
  refine (extract_json_fenced "Here {is} it: " "json" nl "a: {b: 1}" nl " {bye}" _ _ _ _ _).
  - now left.
  - cbn. intuition discriminate.
  - reflexivity.
  - cbn. intuition discriminate.
  - reflexivity.
Defined.

(** ** Token bucket, further *)

(** X5. A request for more tokens than the capacity never succeeds,
    whatever the balance, the refill rate and the clock are, and it leaves
    the refilled bucket as it is. *)
Theorem consume_above_capacity (now n : Q) (b : TokenBucket) :
  capacity b < n ->
  consume now n b = (false, _refill now b).
Proof.
  intros Hn. unfold consume.
  destruct (Qle_bool n (tokens (_refill now b))) eqn:E; [| reflexivity].
  exfalso. apply Qle_bool_iff in E.
  assert (tokens (_refill now b) <= capacity b) by (cbn; apply Q.le_min_l).
  lra.
Qed.

Lemma consume_above_capacity_witness :
  consume 100 3 (new_bucket 2 1 0) = (false, _refill 100 (new_bucket 2 1 0)).
Proof. apply consume_above_capacity. cbn. lra. Defined.

(** X6. Refills compose: with a refill rate that is not negative and a
    balance within the capacity, a refill at [t1] followed by one at a later
    [t2] leaves the balance that a single refill at [t2] leaves, and a second
    refill at the same instant adds nothing. *)
Theorem refill_composes (t1 t2 : Q) (b : TokenBucket) :
  0 <= refill_rate b -> tokens b <= capacity b ->
  last_refill b <= t1 -> t1 <= t2 ->
  tokens (_refill t2 (_refill t1 b)) == tokens (_refill t2 b) /\
  tokens (_refill t1 (_refill t1 b)) == tokens (_refill t1 b) /\
  last_refill (_refill t2 (_refill t1 b)) = t2.
Proof.
  intros Hrate Hcap H1 H2. cbn.
  set (a := (t1 - last_refill b) * refill_rate b).
  set (c := (t2 - t1) * refill_rate b).
  assert (Ha : 0 <= a) by (apply Qmult_le_0_compat; lra).
  assert (Hc : 0 <= c) by (apply Qmult_le_0_compat; lra).
  assert (Hsum : (t2 - last_refill b) * refill_rate b == a + c) by (unfold a, c; ring).
  split; [| split; [| reflexivity]].
  - rewrite Hsum.
    destruct (Q.min_spec (capacity b) (tokens b + a)) as [[Hlt ->] | [Hle ->]].
    + rewrite Q.min_l by lra. rewrite Q.min_l by lra. reflexivity.
    + rewrite Qplus_assoc. reflexivity.
  - assert (Hz : (t1 - t1) * refill_rate b == 0) by ring.
    rewrite Hz, Qplus_0_r. apply Q.min_r. apply Q.le_min_l.
Qed.

Lemma refill_composes_witness :
  tokens (_refill 4 (_refill 2 (mkBucket 10 1 (1 # 2) 0)))
    == tokens (_refill 4 (mkBucket 10 1 (1 # 2) 0)).
Proof.
  refine (proj1 (refill_composes 2 4 (mkBucket 10 1 (1 # 2) 0) _ _ _ _)); cbn; lra.
Defined.

(** ** Rate limiters of the orchestrator *)

(** X7. [_initialize_rate_limiters] makes a bucket for exactly the
    providers of the rate-limiting configuration; the bucket starts full, at
    the configured requests per minute or 60 without one, and once empty it
    is full again after 60 seconds. *)
Theorem initialize_rate_limiters_buckets (limits : gmap string (option Q))
    (now : string -> Q) (provider_name : string) :
  (limits !! provider_name = None ->
   _initialize_rate_limiters limits now !! provider_name = None) /\
  (forall entry, limits !! provider_name = Some entry ->
     exists b, _initialize_rate_limiters limits now !! provider_name = Some b /\
       capacity b = default 60 entry /\ tokens b = capacity b /\
       last_refill b = now provider_name /\
       (0 <= capacity b ->
        tokens (_refill (now provider_name + 60)
                  (mkBucket (capacity b) 0 (refill_rate b) (last_refill b)))
          == capacity b)).
Proof.
  unfold _initialize_rate_limiters. rewrite map_lookup_imap. split.
  - intros ->. reflexivity.
  - intros entry ->. cbn. eexists. split; [reflexivity |].
    cbn. repeat split.
    intros Hcap.
    set (rpm := default 60 entry) in *.
    assert (E : 0 + (now provider_name + 60 - now provider_name) * (rpm / 60) == rpm)
      by (field).
    rewrite E. apply Q.min_l. lra.
Qed.

Lemma initialize_rate_limiters_buckets_witness :
  exists b,
    _initialize_rate_limiters Demo.limits (fun _ => 5) !! "google_ai" = Some b /\
    capacity b = 60.
Proof.
  destruct (proj2 (initialize_rate_limiters_buckets Demo.limits (fun _ => 5) "google_ai") None)
    as (b & Hb & Hcap & _); [vm_compute; reflexivity |].
  exists b. split; [exact Hb | exact Hcap].
Defined.

(** ** Waiting for the rate limiter *)

Lemma await_tokens_unfold (fuel : nat) (name : string) (w : World) (b : TokenBucket) :
  rate_limiters w !! name = Some b ->
  await_tokens fuel name w =
  if Qle_bool 1 (tokens (_refill (clock w) b)) then
    (Ok tt, set_rate_limiter name (snd (consume (clock w) 1 b)) w)
  else
    match fuel with
    | O => (Diverge, set_rate_limiter name (_refill (clock w) b) w)
    | S fuel' =>
        await_tokens fuel' name
          (snd (sleep (1 # 10) (set_rate_limiter name (_refill (clock w) b) w)))
    end.
Proof.
  intros Hb. destruct fuel; cbn [await_tokens]; rewrite Hb; unfold consume;
    destruct (Qle_bool 1 (tokens (_refill (clock w) b))); reflexivity.
Qed.

Lemma of_nat_succ_Q (n : nat) : inject_Z (Z.of_nat (S n)) == inject_Z (Z.of_nat n) + 1.
Proof. rewrite Nat2Z.inj_succ. unfold Z.succ. rewrite inject_Z_plus. reflexivity. Qed.

Lemma await_tokens_enough_fuel (name : string) (fuel : nat) :
  forall (w : World) (b : TokenBucket),
    rate_limiters w !! name = Some b ->
    1 <= capacity b -> 0 <= refill_rate b ->
    1 <= tokens (_refill (clock w) b) + inject_Z (Z.of_nat fuel) * (refill_rate b / 10) ->
    exists w', await_tokens fuel name w = (Ok tt, w') /\
               requests_made w' = requests_made w /\
               requests (trace w') = requests (trace w).
Proof.
  induction fuel as [|fuel IH]; intros w b Hb Hcap Hrate Hfuel;
    rewrite (await_tokens_unfold _ name w b Hb);
    destruct (Qle_bool 1 (tokens (_refill (clock w) b))) eqn:E;
    try (eexists; split; [reflexivity | split; reflexivity]).
  - exfalso. assert (Hno : ~ 1 <= tokens (_refill (clock w) b))
      by (intros H; apply Qle_bool_iff in H; congruence).
    apply Hno. change (inject_Z (Z.of_nat 0)) with 0 in Hfuel. lra.
  - assert (Hno : ~ 1 <= tokens (_refill (clock w) b))
      by (intros H; apply Qle_bool_iff in H; congruence).
    set (b1 := _refill (clock w) b) in *.
    set (w2 := snd (sleep (1 # 10) (set_rate_limiter name b1 w))).
    destruct (IH w2 b1) as (w' & Hrun & Hreq & Htr).
    + unfold w2. cbn. apply lookup_insert_eq.
    + exact Hcap.
    + exact Hrate.
    + unfold w2. cbn [sleep snd clock set_rate_limiter _refill tokens capacity
                        refill_rate last_refill].
      change (capacity b1) with (capacity b). change (refill_rate b1) with (refill_rate b).
      change (last_refill b1) with (clock w).
      rewrite of_nat_succ_Q in Hfuel.
      assert (Hd : 0 <= refill_rate b / 10)
        by (apply Qle_shift_div_l; [reflexivity | lra]).
      assert (Hel : (clock w + (1 # 10) - clock w) * refill_rate b == refill_rate b / 10)
        by field.
      rewrite Hel.
      set (d := refill_rate b / 10) in *.
      assert (Hf : 0 <= inject_Z (Z.of_nat fuel) * d).
      { apply Qmult_le_0_compat; [| exact Hd].
        change 0 with (inject_Z 0). rewrite <- Zle_Qle. lia. }
      set (k := inject_Z (Z.of_nat fuel)) in *.
      assert (Hk : (k + 1) * d == k * d + d) by ring.
      rewrite Hk in Hfuel.
      destruct (Q.min_spec (capacity b) (tokens b1 + d)) as [[_ ->] | [_ ->]]; lra.
    + exists w'. split; [exact Hrun |]. split.
      * rewrite Hreq. reflexivity.
      * rewrite Htr. unfold w2, requests. cbn. rewrite List.filter_app. cbn.
        now rewrite app_nil_r.
Qed.

(** X8. Where the bucket of a provider has a capacity of at least one token
    and a positive refill rate, the polling loop of [_make_request] comes to
    an end: with enough iterations it returns, having sent no request. *)
Theorem await_tokens_terminates (name : string) (w : World) (b : TokenBucket) :
  rate_limiters w !! name = Some b ->
  1 <= capacity b -> 0 < refill_rate b ->
  exists fuel w', await_tokens fuel name w = (Ok tt, w') /\
                  requests (trace w') = requests (trace w).
Proof.
  intros Hb Hcap Hrate.
  destruct (Qarchimedean ((1 - tokens (_refill (clock w) b)) * 10 / refill_rate b))
    as [p Hp].
  destruct (await_tokens_enough_fuel name (Pos.to_nat p) w b Hb Hcap) as (w' & Hrun & _ & Htr).
  - lra.
  - rewrite positive_nat_Z.
    set (t := tokens (_refill (clock w) b)) in *.
    assert (Hd : 0 < refill_rate b / 10)
      by (apply Qlt_shift_div_l; [reflexivity | lra]).
    assert (Hq : (1 - t) * 10 / refill_rate b * (refill_rate b / 10) == 1 - t)
      by (field; lra).
    assert (Hmul : (1 - t) * 10 / refill_rate b * (refill_rate b / 10)
                   <= inject_Z (Z.pos p) * (refill_rate b / 10)).
    { apply Qmult_le_compat_r; [| apply Qlt_le_weak; exact Hd].
      apply Qlt_le_weak. exact Hp. }
    rewrite Hq in Hmul.
    set (d := inject_Z (Z.pos p) * (refill_rate b / 10)) in *. lra.
  - exists (Pos.to_nat p), w'. split; assumption.
Qed.

Lemma await_tokens_terminates_witness :
  exists fuel w',
    await_tokens fuel "openrouter"
      (set_rate_limiter "openrouter" (mkBucket 2 0 1 0) (Demo.world [])) = (Ok tt, w') /\
    requests (trace w') = [].
Proof.
  refine (await_tokens_terminates "openrouter"
            (set_rate_limiter "openrouter" (mkBucket 2 0 1 0) (Demo.world []))
            (mkBucket 2 0 1 0) _ _ _).
  - vm_compute. reflexivity.
  - cbn. lra.
  - cbn. lra.
Defined.

(** X9. Where the bucket of a provider has a capacity below one token, the
    polling loop never ends: whatever number of iterations it is given, it
    is still waiting. *)
Theorem await_tokens_starves (name : string) (fuel : nat) :
  forall (w : World) (b : TokenBucket),
    rate_limiters w !! name = Some b -> capacity b < 1 ->
    fst (await_tokens fuel name w) = Diverge.
Proof.
  induction fuel as [|fuel IH]; intros w b Hb Hcap;
    rewrite (await_tokens_unfold _ name w b Hb);
    assert (Hlow : tokens (_refill (clock w) b) <= capacity b)
      by (cbn; apply Q.le_min_l);
    (destruct (Qle_bool 1 (tokens (_refill (clock w) b))) eqn:E;
       [apply Qle_bool_iff in E; lra |]).
  - reflexivity.
  - apply (IH _ (_refill (clock w) b)).
    + cbn. apply lookup_insert_eq.
    + exact Hcap.
Qed.

Lemma await_tokens_starves_witness :
  fst (await_tokens 50 "openrouter"
         (set_rate_limiter "openrouter" (new_bucket 0 0 0) (Demo.world []))) = Diverge.
Proof.
  apply (await_tokens_starves "openrouter" 50 _ (new_bucket 0 0 0)).
  - vm_compute. reflexivity.
  - cbn. lra.
Defined.

(** ** Circuit breaker, further *)

Lemma step_keeps_failure_time (cb cb' : CircuitBreaker) :
  Breaker.step cb cb' ->
  (state cb <> closed -> is_Some (last_failure_time cb)) /\ (0 <= failures cb)%Z ->
  (state cb' <> closed -> is_Some (last_failure_time cb')) /\ (0 <= failures cb')%Z.
Proof.
  intros Hstep [Hinv Hpos].
  destruct Hstep as [now cb cb' Hgate | cb | now cb].
  - unfold Breaker.gate in Hgate.
    destruct (state cb) eqn:Hst;
      try (injection Hgate as <-; rewrite Hst; split; [exact Hinv | exact Hpos]).
    destruct (Hinv ltac:(discriminate)) as [t Hl]. rewrite Hl in Hgate.
    destruct (Qgt_bool _ _); [| discriminate].
    injection Hgate as <-. cbn. split; [eauto | assumption].
  - unfold Breaker.on_success. destruct (state cb) eqn:Hst; cbn; try rewrite Hst;
      try (split; [exact Hinv | exact Hpos]). split; [congruence | lia].
  - unfold Breaker.on_failure. cbn. split; [eauto | lia].
Qed.

(** X10. In every state a breaker can reach, the failure count is not
    negative and an open or half-open breaker has a failure time, so that
    the gate of [call] either lets the call through or raises the
    breaker-open error; the subtraction from the clock never meets [None]. *)
Theorem breaker_gate_never_type_error (threshold : Z) (timeout : Q) (cb : CircuitBreaker) :
  Breaker.reachable threshold timeout cb ->
  (0 <= failures cb)%Z /\
  (state cb <> closed -> is_Some (last_failure_time cb)) /\
  (forall now e, Breaker.gate now cb = inl e -> e = breaker_open_error).
Proof.
  intros Hreach.
  assert (Hinv : (state cb <> closed -> is_Some (last_failure_time cb)) /\
                 (0 <= failures cb)%Z).
  { induction Hreach as [| cb cb' _ IH Hstep].
    - cbn. split; [congruence | lia].
    - eapply step_keeps_failure_time; eassumption. }
  destruct Hinv as [Hinv Hpos]. split; [exact Hpos |]. split; [exact Hinv |].
  intros now e. unfold Breaker.gate.
  destruct (state cb) eqn:Hst; try discriminate.
  destruct (Hinv ltac:(discriminate)) as [t ->].
  destruct (Qgt_bool _ _); [discriminate |]. congruence.
Qed.

Lemma breaker_gate_never_type_error_witness :
  (0 <= failures Demo.half_opened)%Z /\
  is_Some (last_failure_time Demo.half_opened).
Proof.
  assert (Hreach : Breaker.reachable 1 60 Demo.half_opened).
  { apply Breaker.reach_step with (cb := Breaker.on_failure 0 (new_breaker 1 60)).
    - apply Breaker.reach_step with (cb := new_breaker 1 60);
        [apply Breaker.reach_new | apply Breaker.step_failure].
    - apply Breaker.step_gate with (now := 100%Q). reflexivity. }
  split.
  - exact (proj1 (breaker_gate_never_type_error 1 60 Demo.half_opened Hreach)).
  - refine (proj1 (proj2 (breaker_gate_never_type_error 1 60 Demo.half_opened Hreach)) _).
    discriminate.
Defined.

Section MixedCalls.
Context {S A : Type} (time : S -> Q).

Lemma call_closed_success (func : M S A) (cb : CircuitBreaker) (s : S) :
  state cb = closed -> always_returns func ->
  exists a s', Breaker.call time func (cb, s) = (Ok a, (cb, s')).
Proof.
  intros Hst Hf. destruct (Hf s) as (a & s' & E). exists a, s'.
  unfold Breaker.call, Breaker.gate, Breaker.on_success. rewrite Hst, E, Hst. reflexivity.
Qed.

Lemma call_closed_raise (func : M S A) (cb : CircuitBreaker) (s : S) :
  state cb = closed -> Breaker.always_raises func ->
  exists e s',
    Breaker.call time func (cb, s) = (Raise e, (Breaker.on_failure (time s') cb, s')).
Proof.
  intros Hst Hf. destruct (Hf s) as (e & s' & E). exists e, s'.
  unfold Breaker.call, Breaker.gate. rewrite Hst, E. reflexivity.
Qed.

(** While the count stays below the threshold the breaker stays closed
    and counts the failures, the successes changing nothing. *)
Lemma call_each_counts (funcs : list (M S A)) (n : nat) :
  failing_calls funcs n ->
  forall (cb : CircuitBreaker) (s : S),
    state cb = closed ->
    (failures cb + Z.of_nat n < failure_threshold cb)%Z ->
    let cb' := fst (Breaker.call_each time funcs (cb, s)) in
    state cb' = closed /\ failures cb' = (failures cb + Z.of_nat n)%Z /\
    failure_threshold cb' = failure_threshold cb.
Proof.
  induction 1 as [| func funcs n Hf _ IH | func funcs n Hf _ IH]; intros cb s Hst Hlt.
  - cbn. repeat split; [assumption | lia].
  - destruct (call_closed_raise func cb s Hst Hf) as (e & s' & E).
    cbn [Breaker.call_each]. rewrite E. cbn [snd].
    destruct (IH (Breaker.on_failure (time s') cb) s') as (H1 & H2 & H3).
    + cbn. rewrite Hst.
      destruct (Z.leb_spec (failure_threshold cb) (failures cb + 1)); [lia | reflexivity].
    + cbn. lia.
    + cbn zeta. split; [exact H1 |]. split; [rewrite H2; cbn; lia | exact H3].
  - destruct (call_closed_success func cb s Hst Hf) as (a & s' & E).
    cbn [Breaker.call_each]. rewrite E. cbn [snd].
    apply IH; assumption.
Qed.

Lemma call_each_app (l1 l2 : list (M S A)) (st : CircuitBreaker * S) :
  Breaker.call_each time (l1 ++ l2)%list st
    = Breaker.call_each time l2 (Breaker.call_each time l1 st).
Proof. revert st. induction l1 as [|f l1 IH]; intros st; cbn; [reflexivity | apply IH]. Qed.
End MixedCalls.

(** X11. Successes do not reset the count of a closed breaker.  From a new
    breaker, calls of which [n] raise and the others return leave it closed
    with a count of [n] while [n] is below the threshold, in whatever order
    they come; and the raising call that brings the count to the threshold
    opens it. *)
Theorem breaker_counts_across_successes (threshold : Z) (timeout : Q)
    (S A : Type) (time : S -> Q) (funcs : list (M S A)) (n : nat) (s0 : S) :
  failing_calls funcs n -> (Z.of_nat n < threshold)%Z ->
  let cb := fst (Breaker.call_each time funcs (new_breaker threshold timeout, s0)) in
  state cb = closed /\ failures cb = Z.of_nat n /\
  (forall func, Breaker.always_raises func -> (Z.of_nat n + 1 = threshold)%Z ->
     state (fst (Breaker.call_each time (funcs ++ [func])%list
                   (new_breaker threshold timeout, s0))) = open).
Proof.
  intros Hcalls Hlt.
  destruct (call_each_counts time funcs n Hcalls (new_breaker threshold timeout) s0)
    as (Hst & Hcount & Hthr); [reflexivity | cbn; lia |].
  cbn in Hcount, Hthr. cbn zeta.
  split; [exact Hst |]. split; [exact Hcount |].
  intros func Hf Hlast. rewrite call_each_app.
  destruct (Breaker.call_each time funcs (new_breaker threshold timeout, s0)) as [cb s] eqn:E.
  cbn [fst] in *.
  destruct (call_closed_raise time func cb s Hst Hf) as (e & s' & Ecall).
  cbn [Breaker.call_each]. rewrite Ecall. cbn.
  destruct (Z.leb_spec (failure_threshold cb) (failures cb + 1)); [reflexivity | lia].
Qed.

Lemma breaker_counts_across_successes_witness :
  state (fst (Breaker.call_each (fun s : Q => s)
                [Demo.always_failing; Demo.always_fine; Demo.always_failing]
                (new_breaker 3 60, 0%Q))) = closed.
Proof.
  refine (proj1 (breaker_counts_across_successes 3 60 Q unit (fun s : Q => s)
                   [Demo.always_failing; Demo.always_fine; Demo.always_failing] 2 0%Q _ _)).
  - apply failing_raise; [intros s; eexists _, _; reflexivity |].
    apply failing_return; [intros s; eexists _, _; reflexivity |].
    apply failing_raise; [intros s; eexists _, _; reflexivity |].
    apply failing_none.
  - lia.
Defined.

(** ** Retry controller, further *)

Lemma power_succ_le (m : Q) (k : nat) :
  (1 <= m)%Q -> (m ^ Z.of_nat k <= m ^ Z.of_nat (S k))%Q.
Proof.
  intros Hm. rewrite Nat2Z.inj_succ. unfold Z.succ.
  rewrite Qpower_plus' by lia.
  assert (H0 : (0 <= m ^ Z.of_nat k)%Q) by (apply Qpower_0_le; lra).
  change (m ^ 1)%Q with m.
  apply Qle_trans with (m ^ Z.of_nat k * 1)%Q.
  - rewrite Qmult_1_r. apply Qle_refl.
  - apply Qmult_le_compat_nonneg; split; try lra; apply Qle_refl.
Qed.

(** X12. With a base delay that is not negative and a multiplier of at
    least 1, the delay of the retry controller never decreases from one
    attempt to the next and never exceeds the maximal delay. *)
Theorem backoff_delay_monotone (rc : RetryConfig) (attempt : nat) :
  (0 <= base_delay_ms rc)%Q -> (1 <= exponential_base rc)%Q ->
  (backoff_delay rc attempt <= backoff_delay rc (S attempt))%Q /\
  (backoff_delay rc attempt <= max_delay_ms rc / 1000)%Q.
Proof.
  intros Hbase Hmult. unfold backoff_delay. split; [| apply Q.le_min_r].
  apply Q.min_le_compat_r.
  assert (Hb : (0 <= base_delay_ms rc / 1000)%Q)
    by (apply Qle_shift_div_l; [reflexivity | lra]).
  apply Qmult_le_compat_nonneg; split.
  - exact Hb.
  - apply Qle_refl.
  - apply Qpower_0_le. lra.
  - now apply power_succ_le.
Qed.

Lemma backoff_delay_monotone_witness :
  (backoff_delay (retry_config Demo.config) 3 <= backoff_delay (retry_config Demo.config) 4)%Q.
Proof.
  refine (proj1 (backoff_delay_monotone (retry_config Demo.config) 3 _ _)); cbn; lra.
Defined.

Section RetryRuns.
Variable cfg : Config.

Lemma retry_from_always_failing (func : M World pyval) (e : exn) (max_retries : nat) :
  (forall w, func w = (Raise e, w)) ->
  forall todo attempt w,
    (attempt + S todo = max_retries)%nat ->
    exists w',
      retry_from cfg func max_retries attempt (S todo) w = (Raise e, w') /\
      length (sleeps (trace w')) = (length (sleeps (trace w)) + todo)%nat /\
      requests (trace w') = requests (trace w).
Proof.
  intros Hf. induction todo as [|todo IH]; intros attempt w Hsum.
  - exists w. rewrite (retry_from_last cfg func max_retries attempt 0 w e w (Hf w))
      by (apply Nat.eqb_eq; lia).
    repeat split. lia.
  - destruct (retry_from_failure cfg func max_retries attempt (S todo) w e w (Hf w))
      as (w2 & Hrun & Htr & _); [apply Nat.eqb_neq; lia |].
    destruct (IH (S attempt) w2 ltac:(lia)) as (w' & Hrun' & Hs & Hr).
    exists w'. rewrite Hrun. split; [exact Hrun' |].
    rewrite Hs, Hr, Htr. unfold sleeps, requests.
    rewrite !List.filter_app, !length_app. cbn. rewrite app_nil_r. split; [lia | reflexivity].
Qed.
End RetryRuns.

(** X13. The retry controller calls the function until it returns: a
    function that returns at the first attempt gives its result with no
    sleep; for a function that always raises the same error and changes
    nothing, [max_retries >= 1] attempts raise that error after exactly
    [max_retries - 1] sleeps, the last attempt not being followed by one;
    and with [max_retries = 0] the function is not called and the result is
    [None]. *)
Theorem retry_with_backoff_attempts (cfg : Config) (func : M World pyval) (w : World) :
  (forall max_retries v w1, func w = (Ok v, w1) ->
     _retry_with_backoff cfg func (S max_retries) w = (Ok v, w1)) /\
  (forall max_retries e, (forall w0, func w0 = (Raise e, w0)) ->
     exists w',
       _retry_with_backoff cfg func (S max_retries) w = (Raise e, w') /\
       length (sleeps (trace w')) = (length (sleeps (trace w)) + max_retries)%nat /\
       requests (trace w') = requests (trace w)) /\
  _retry_with_backoff cfg func 0 w = (Ok PNone, w).
Proof.
  split; [| split].
  - intros max_retries v w1 Hf. unfold _retry_with_backoff. cbn [retry_from].
    unfold try_except. now rewrite Hf.
  - intros max_retries e Hf. unfold _retry_with_backoff.
    apply retry_from_always_failing; [assumption | lia].
  - reflexivity.
Qed.

Lemma retry_with_backoff_attempts_witness :
  exists w',
    _retry_with_backoff Demo.config (raise (UpstreamError "503")) 5 (Demo.world [])
      = (Raise (UpstreamError "503"), w') /\
    length (sleeps (trace w')) = 4%nat.
Proof.
  destruct (proj1 (proj2 (retry_with_backoff_attempts Demo.config
                            (raise (UpstreamError "503")) (Demo.world [])))
              4%nat (UpstreamError "503") (fun w0 => eq_refl))
    as (w' & Hrun & Hs & _).
  exists w'. split; [exact Hrun | exact Hs].
Defined.

(** ** Model invoker, further *)

Section Fallbacks.
Variable cfg : Config.

(** The loop over the fallbacks, as [call_ai_model] has it. *)
Let try_fallbacks (fuel : nat) (prompt : string) (config : option CallConfig)
    (system_prompt : option string) (e : exn) : list string -> M World pyval :=
  fix try_fallbacks (fallbacks : list string) : M World pyval :=
    match fallbacks with
    | [] => raise e
    | fallback_model :: rest =>
        try_except (call_ai_model cfg fuel fallback_model prompt config system_prompt)
          (fun _ => try_fallbacks rest)
    end.

Lemma call_ai_model_after_primary fuel model_name mc prompt config system_prompt w e w1 :
  ai_models cfg !! model_name = Some mc ->
  call_primary cfg fuel model_name mc prompt config system_prompt w = (Raise e, w1) ->
  call_ai_model cfg (S fuel) model_name prompt config system_prompt w
    = try_fallbacks fuel prompt config system_prompt e
        (default [] (model_fallbacks cfg !! model_name)) w1.
Proof.
  intros Hmodel Hprimary. cbn [call_ai_model]. rewrite Hmodel.
  unfold try_except at 1. rewrite Hprimary. reflexivity.
Qed.

Lemma try_fallbacks_all_fail fuel prompt config system_prompt e names w w' :
  all_fail (fun name => call_ai_model cfg fuel name prompt config system_prompt)
    names w w' ->
  forall rest,
    try_fallbacks fuel prompt config system_prompt e (names ++ rest)%list w
      = try_fallbacks fuel prompt config system_prompt e rest w'.
Proof.
  induction 1 as [w | name names w w1 w' e' Hcall _ IH]; intros rest; [reflexivity |].
  cbn [app try_fallbacks]. unfold try_except at 1. rewrite Hcall. apply IH.
Qed.

(** X14. When the primary model has failed with [e], its fallbacks are
    called in listed order: the result is that of the first fallback that
    returns, the fallbacks after it not being called; and when every
    fallback raises, the error raised is [e], the error of the primary
    model, whatever errors the fallbacks raised. *)
Theorem fallbacks_tried_in_order (fuel : nat) (model_name : string)
    (mc : ModelConfig) (prompt : string) (config : option CallConfig)
    (system_prompt : option string) (w w1 : World) (e : exn) :
  ai_models cfg !! model_name = Some mc ->
  call_primary cfg fuel model_name mc prompt config system_prompt w = (Raise e, w1) ->
  (forall failed fallback rest w2 v w3,
     default [] (model_fallbacks cfg !! model_name) = (failed ++ fallback :: rest)%list ->
     all_fail (fun name => call_ai_model cfg fuel name prompt config system_prompt)
       failed w1 w2 ->
     call_ai_model cfg fuel fallback prompt config system_prompt w2 = (Ok v, w3) ->
     call_ai_model cfg (S fuel) model_name prompt config system_prompt w = (Ok v, w3)) /\
  (forall w2,
     all_fail (fun name => call_ai_model cfg fuel name prompt config system_prompt)
       (default [] (model_fallbacks cfg !! model_name)) w1 w2 ->
     call_ai_model cfg (S fuel) model_name prompt config system_prompt w = (Raise e, w2)).
Proof.
  intros Hmodel Hprimary.
  pose proof (call_ai_model_after_primary fuel model_name mc prompt config system_prompt
                w e w1 Hmodel Hprimary) as Hrun.
  split.
  - intros failed fallback rest w2 v w3 Hlist Hfailed Hok.
    rewrite Hrun, Hlist.
    rewrite (try_fallbacks_all_fail _ _ _ _ _ _ _ _ Hfailed).
    cbn [try_fallbacks]. unfold try_except. now rewrite Hok.
  - intros w2 Hall. rewrite Hrun.
    rewrite <- (app_nil_r (default [] (model_fallbacks cfg !! model_name))).
    rewrite (try_fallbacks_all_fail _ _ _ _ _ _ _ _ Hall). reflexivity.
Qed.
End Fallbacks.

Lemma fallbacks_tried_in_order_witness :
  fst (call_ai_model Demo.fallback_config 4 "local_ai" "ping" None None
         (Demo.world [inr (PStr "pong")])) = Ok (PStr "pong").
Proof.
  set (w := Demo.world [inr (PStr "pong")]).
  set (w1 := snd (call_primary Demo.fallback_config 3 "local_ai" (mkModel "acme" "acme-1" ∅)
                    "ping" None None w)).
  set (w3 := snd (call_ai_model Demo.fallback_config 3 "thinking_ai" "ping" None None w1)).
  destruct (fallbacks_tried_in_order Demo.fallback_config 3 "local_ai"
              (mkModel "acme" "acme-1" ∅) "ping" None None w w1
              (ValueError "Unknown provider: acme"))
    as [Hfirst _]; [vm_compute; reflexivity .. |].
  rewrite (Hfirst ["missing_ai"] "thinking_ai" [] w1 (PStr "pong") w3).
  - reflexivity.
  - vm_compute. reflexivity.
  - eapply all_fail_cons; [vm_compute; reflexivity | apply all_fail_nil].
  - vm_compute. reflexivity.
Defined.

(** X15. A model name that the configuration does not have is refused at
    once with the unknown-model error, for any configured fallbacks of that
    name: nothing is retried, no breaker is made, and the world is as it
    was. *)
Theorem unknown_model_fails_fast (cfg : Config) (fuel : nat) (model_name prompt : string)
    (config : option CallConfig) (system_prompt : option string) (w : World) :
  ai_models cfg !! model_name = None ->
  call_ai_model cfg (S fuel) model_name prompt config system_prompt w
    = (Raise (ValueError ("Unknown model: " +:+ model_name)), w).
Proof. intros Hmodel. cbn [call_ai_model]. rewrite Hmodel. reflexivity. Qed.

Lemma unknown_model_fails_fast_witness :
  call_ai_model Demo.fallback_config 3 "missing_ai" "ping" None None (Demo.world [])
    = (Raise (ValueError "Unknown model: missing_ai"), Demo.world []).
Proof. apply unknown_model_fails_fast. vm_compute. reflexivity. Defined.

(** ** No model call touches a breaker *)

Lemma breakers_kept_refl (cfg : Config) (w w' : World) :
  circuit_breakers w' = circuit_breakers w -> breakers_kept cfg w w'.
Proof. intros E. unfold breakers_kept. rewrite E. split; auto. Qed.

Lemma breakers_kept_trans (cfg : Config) (w1 w2 w3 : World) :
  breakers_kept cfg w1 w2 -> breakers_kept cfg w2 w3 -> breakers_kept cfg w1 w3.
Proof.
  intros [H12 H12'] [H23 H23']. split.
  - intros name cb H. apply H23, H12, H.
  - intros name cb H. destruct (H23' name cb H) as [H2 | ->]; [| now right].
    apply H12'. exact H2.
Qed.

Lemma await_tokens_breakers (fuel : nat) (name : string) :
  forall w, circuit_breakers (snd (await_tokens fuel name w)) = circuit_breakers w.
Proof.
  induction fuel as [|fuel IH]; intros w; cbn [await_tokens];
    destruct (rate_limiters w !! name) as [b |]; try reflexivity;
    destruct (consume (clock w) 1 b) as [[|] b']; try reflexivity.
  unfold_monad. cbn. rewrite IH. reflexivity.
Qed.

Lemma make_request_breakers fuel provider_name model prompt system config w :
  circuit_breakers (snd (_make_request fuel provider_name model prompt system config w))
    = circuit_breakers w.
Proof.
  unfold _make_request. unfold_monad.
  pose proof (await_tokens_breakers fuel provider_name w) as Hwait.
  destruct (await_tokens fuel provider_name w) as [[[] | e |] w1]; cbn [snd] in *;
    try exact Hwait.
  rewrite <- Hwait.
  destruct (String.eqb provider_name "openrouter").
  - unfold _call_openrouter, http_post. destruct (outcome _); reflexivity.
  - destruct (String.eqb provider_name "google_ai"); [| reflexivity].
    unfold _call_google_ai, http_post.
    destruct (PyStr.contains "imagen" _); [destruct (outcome _); reflexivity |].
    destruct (PyStr.contains "veo" _); [destruct (outcome _); reflexivity | reflexivity].
Qed.

Section BreakersKept.
Variable cfg : Config.

Lemma retry_from_breakers (func : M World pyval) (max_retries : nat) :
  (forall w, circuit_breakers (snd (func w)) = circuit_breakers w) ->
  forall todo attempt w,
    circuit_breakers (snd (retry_from cfg func max_retries attempt todo w))
      = circuit_breakers w.
Proof.
  intros Hf. induction todo as [|todo IH]; intros attempt w; [reflexivity |].
  cbn [retry_from]. unfold try_except at 1.
  pose proof (Hf w) as Hw. destruct (func w) as [[v | e |] w1]; cbn [snd] in *;
    try exact Hw.
  destruct (attempt =? max_retries - 1)%nat; [exact Hw |].
  rewrite <- Hw.
  destruct (jitter_enabled (retry_config cfg)); unfold_monad; cbn; rewrite IH; reflexivity.
Qed.

Lemma call_primary_breakers fuel model_name mc prompt config system_prompt w :
  breakers_kept cfg w
    (snd (call_primary cfg fuel model_name mc prompt config system_prompt w)).
Proof.
  unfold call_primary, _retry_with_backoff. unfold_monad.
  assert (Hget : breakers_kept cfg w (snd (_get_circuit_breaker cfg model_name w))).
  { unfold _get_circuit_breaker.
    destruct (circuit_breakers w !! model_name) as [cb |] eqn:E; cbn [snd].
    - now apply breakers_kept_refl.
    - split; cbn.
      + intros name cb H. rewrite lookup_insert_ne; [exact H | congruence].
      + intros name cb H. destruct (decide (model_name = name)) as [-> | Hne].
        * rewrite lookup_insert_eq in H. right. congruence.
        * rewrite lookup_insert_ne in H by assumption. now left. }
  destruct (_get_circuit_breaker cfg model_name w) as [[cb | e |] w0]; cbn [snd] in *;
    try exact Hget.
  eapply breakers_kept_trans; [exact Hget |].
  apply breakers_kept_refl. apply retry_from_breakers.
  intros v. apply make_request_breakers.
Qed.

(** X16. No model call touches a circuit breaker: after [call_ai_model],
    whatever its outcome, its retries and its fallbacks, every breaker
    that was there is there unchanged, and a breaker that was not there is
    a new, closed one with no failure counted. *)
Theorem call_ai_model_keeps_breakers (fuel : nat) :
  forall (model_name prompt : string) (config : option CallConfig)
         (system_prompt : option string) (w : World),
    breakers_kept cfg w
      (snd (call_ai_model cfg fuel model_name prompt config system_prompt w)).
Proof.
  induction fuel as [|fuel IH]; intros model_name prompt config system_prompt w.
  - now apply breakers_kept_refl.
  - cbn [call_ai_model].
    destruct (ai_models cfg !! model_name) as [mc |]; [| now apply breakers_kept_refl].
    unfold try_except at 1.
    pose proof (call_primary_breakers fuel model_name mc prompt config system_prompt w)
      as Hprimary.
    destruct (call_primary cfg fuel model_name mc prompt config system_prompt w)
      as [[v | e |] w1]; cbn [snd] in *; try exact Hprimary.
    eapply breakers_kept_trans; [exact Hprimary |]. clear Hprimary.
    generalize (default [] (model_fallbacks cfg !! model_name)) as fallbacks.
    intros fallbacks. revert w1.
    induction fallbacks as [|fallback rest IHrest]; intros w1.
    + now apply breakers_kept_refl.
    + unfold try_except at 1.
      pose proof (IH fallback prompt config system_prompt w1) as Hfb.
      destruct (call_ai_model cfg fuel fallback prompt config system_prompt w1)
        as [[v | e' |] w2]; cbn [snd] in *; try exact Hfb.
      eapply breakers_kept_trans; [exact Hfb | apply IHrest].
Qed.
End BreakersKept.

(** ** Categorizer and router, further *)

(** X17. Whatever the categorizer model answers, a category returned by
    [categorize_request] is one of ["L"], ["M"] and ["H"]; an answer that,
    stripped and upper-cased, is none of the three gives ["H"]. *)
Theorem categorize_request_categories (cfg : Config) (fuel : nat) (user_message : string)
    (context_tokens : Z) (w w' : World) (category : string) :
  categorize_request cfg fuel user_message context_tokens w = (Ok category, w') ->
  (category = "L" \/ category = "M" \/ category = "H") /\
  (forall text,
     call_ai_model cfg fuel "categorizer_ai" user_message (Some (temperature (3 # 10))) None w
       = (Ok (PStr text), w') ->
     (context_tokens <= force_thinking_ai (context_limits cfg))%Z ->
     (context_tokens <= force_gemini_pro (context_limits cfg))%Z ->
     _contains_image user_message = false ->
     PyStr.upper (PyStr.strip text) <> "L" -> PyStr.upper (PyStr.strip text) <> "M" ->
     PyStr.upper (PyStr.strip text) <> "H" ->
     category = "H").
Proof.
  unfold categorize_request. intros Hrun.
  destruct (deny_request (context_limits cfg) <? context_tokens)%Z eqn:Hdeny;
    [discriminate |].
  destruct (force_gemini_pro (context_limits cfg) <? context_tokens)%Z eqn:Hpro.
  { injection Hrun as <- _. split; [now left |]. intros text _ _ Hle. apply Z.ltb_lt in Hpro. lia. }
  destruct (force_thinking_ai (context_limits cfg) <? context_tokens)%Z eqn:Hthink.
  { injection Hrun as <- _. split; [now left |]. intros text _ Hle. apply Z.ltb_lt in Hthink. lia. }
  destruct (_contains_image user_message) eqn:Himg.
  { injection Hrun as <- _. split; [now left |]. intros; discriminate. }
  unfold_monad.
  destruct (call_ai_model cfg fuel "categorizer_ai" user_message _ None w)
    as [[[ | b | z | text] | e |] w1]; try discriminate.
  destruct (String.eqb_spec (PyStr.upper (PyStr.strip text)) "L") as [EL | NL].
  { cbn in Hrun. injection Hrun as <- _. split; [now left |].
    intros text' Hcall. injection Hcall as <- _. congruence. }
  destruct (String.eqb_spec (PyStr.upper (PyStr.strip text)) "M") as [EM | NM].
  { cbn in Hrun. injection Hrun as <- _. split; [right; now left |].
    intros text' Hcall. injection Hcall as <- _. congruence. }
  destruct (String.eqb_spec (PyStr.upper (PyStr.strip text)) "H") as [EH | NH].
  { cbn in Hrun. injection Hrun as <- _. split; [right; now right |].
    intros text' Hcall. injection Hcall as <- _. congruence. }
  cbn in Hrun. injection Hrun as <- _. split; [right; now right | reflexivity].
Qed.

Lemma categorize_request_categories_witness :
  exists category,
    fst (categorize_request Demo.config 3 "hello" 0
           (Demo.world [inr (PStr "maybe medium")])) = Ok category /\
    (category = "L" \/ category = "M" \/ category = "H").
Proof.
  exists "H". split; [vm_compute; reflexivity |].
  refine (proj1 (categorize_request_categories Demo.config 3 "hello" 0
                   (Demo.world [inr (PStr "maybe medium")])
                   (snd (categorize_request Demo.config 3 "hello" 0
                           (Demo.world [inr (PStr "maybe medium")]))) "H" _)).
  vm_compute. reflexivity.
Defined.

Section Router.
Variable cfg : Config.
Variable gather : list (M Run pyval) -> M Run (list (exn + pyval)).
Variable json_loads : string -> planned.
Variable json_dumps : gmap string pyval -> string.

(** X18. A request whose context tokens exceed the deny limit is refused
    by [process_request] with a [ValueError], whatever the message is, and
    no model is called: the world is as it was. *)
Theorem process_request_denies (fuel : nat) (user_message : string)
    (context_tokens : Z) (w : World) :
  (deny_request (context_limits cfg) < context_tokens)%Z ->
  process_request cfg gather json_loads json_dumps fuel user_message context_tokens w
    = (Raise (ValueError "Request exceeds maximum token limit"), w).
Proof.
  intros Hdeny. unfold process_request, categorize_request. unfold_monad.
  now rewrite (proj2 (Z.ltb_lt _ _) Hdeny).
Qed.

(** X19. A request within the deny limit that exceeds a force threshold
    or carries an image marker is answered by one direct call, with the
    message as it is and a temperature of 0.7, to the model that the route
    ["L"] names; the categorizer model is not called. *)
Theorem process_request_direct_route (fuel : nat) (user_message : string)
    (context_tokens : Z) (routing : gmap string string) (model : string) (w : World) :
  (context_tokens <= deny_request (context_limits cfg))%Z ->
  (force_gemini_pro (context_limits cfg) < context_tokens)%Z \/
  (force_thinking_ai (context_limits cfg) < context_tokens)%Z \/
  _contains_image user_message = true ->
  categorization cfg !! "L" = Some routing ->
  routing !! "model" = Some model ->
  process_request cfg gather json_loads json_dumps fuel user_message context_tokens w
    = call_ai_model cfg fuel model user_message (Some (temperature (7 # 10))) None w.
Proof.
  intros Hdeny Hwhy Hroute Hmodel.
  assert (Hcat : categorize_request cfg fuel user_message context_tokens w = (Ok "L", w)).
  { unfold categorize_request. rewrite (proj2 (Z.ltb_ge _ _) Hdeny).
    destruct (force_gemini_pro (context_limits cfg) <? context_tokens)%Z eqn:Hpro;
      [reflexivity |].
    destruct (force_thinking_ai (context_limits cfg) <? context_tokens)%Z eqn:Hthink;
      [reflexivity |].
    apply Z.ltb_ge in Hpro, Hthink.
    destruct Hwhy as [H | [H | ->]]; [lia | lia | reflexivity]. }
  unfold process_request, routing_entry. unfold_monad.
  rewrite Hcat, Hroute. cbn [String.eqb Ascii.eqb Bool.eqb orb]. rewrite Hmodel.
  destruct (call_ai_model cfg fuel model user_message _ None w) as [[v | e |] w1];
    reflexivity.
Qed.
End Router.

Lemma process_request_denies_witness :
  process_request Demo.config Demo.gather_in_order Demo.no_json Demo.dumps 3
    "image: x" 200001 (Demo.world [])
  = (Raise (ValueError "Request exceeds maximum token limit"), Demo.world []).
Proof. apply process_request_denies. cbn. lia. Defined.

Lemma process_request_direct_route_witness :
  fst (process_request Demo.config Demo.gather_in_order Demo.no_json Demo.dumps 3
         "see image: cat.png" 0 (Demo.world [inr (PStr "a cat")]))
  = Ok (PStr "a cat").
Proof.
  rewrite (process_request_direct_route Demo.config Demo.gather_in_order Demo.no_json
             Demo.dumps 3 "see image: cat.png" 0 {[ "model" := "thinking_ai" ]}
             "thinking_ai").
  - vm_compute. reflexivity.
  - cbn. lia.
  - right. right. vm_compute. reflexivity.
  - vm_compute. reflexivity.
  - vm_compute. reflexivity.
Defined.

(** ** Tasks and workflows, further *)

Section TaskRuns.
Variable cfg : Config.
Variable gather : list (M Run pyval) -> M Run (list (exn + pyval)).

(** X20. A task whose model call returns stores the result under its
    output variable and returns it, the prompt sent being the template
    with the variables of the state filled in; the tasks that follow in
    the same inline batch run on the state with that variable set. *)
Theorem execute_task_stores_result (fuel : nat) (task : Task) (name : string)
    (rest : list Task) (st : WorkflowState) (w w' : World) (result : pyval) :
  task_output_variable task = Some name -> name <> EmptyString ->
  call_ai_model cfg fuel (task_model task) (replace_variables st (task_prompt task))
    (Some (default (mkCall None ∅) (task_config task))) None w = (Ok result, w') ->
  _execute_task cfg fuel task (st, w) = (Ok result, (set_variable name result st, w')) /\
  get_variable (set_variable name result st) name = result /\
  run_inline cfg fuel (task :: rest) (st, w)
    = run_inline cfg fuel rest (set_variable name result st, w').
Proof.
  intros Hout Hname Hcall.
  assert (Hnames : names_variable (task_output_variable task) = Some name).
  { rewrite Hout. cbn. destruct (String.eqb_spec name EmptyString); [contradiction | reflexivity]. }
  assert (Htask : _execute_task cfg fuel task (st, w)
                  = (Ok result, (set_variable name result st, w'))).
  { unfold _execute_task. unfold_monad. unfold read_state, in_world, in_state.
    rewrite Hcall, Hnames. reflexivity. }
  split; [exact Htask |]. split.
  - unfold get_variable, set_variable. cbn. now rewrite lookup_insert_eq.
  - cbn [run_inline]. unfold_monad. now rewrite Htask.
Qed.

(** X21. When the model call of a task raises [e], the failure narrator
    is called once, with a prompt made of [str(e)], the model name and the
    first 200 characters of the prompt.  If the narrator returns, its text
    is the result of the task and nothing is stored, output variable or
    not; if the narrator raises as well, the task raises [e], not the
    error of the narrator. *)
Theorem execute_task_narrates_failure (fuel : nat) (task : Task)
    (st : WorkflowState) (w w1 : World) (e : exn) :
  call_ai_model cfg fuel (task_model task) (replace_variables st (task_prompt task))
    (Some (default (mkCall None ∅) (task_config task))) None w = (Raise e, w1) ->
  let narration :=
    call_ai_model cfg fuel "ai_workers_failed_ai"
      ("Task failed: " +:+ exn_str e +:+ ". Model: " +:+ task_model task +:+
       ". Prompt: " +:+ PyStr.take 200 (replace_variables st (task_prompt task)) +:+ "...")
      (Some (temperature (7 # 10))) None w1 in
  (forall message w2, narration = (Ok message, w2) ->
     _execute_task cfg fuel task (st, w) = (Ok message, (st, w2))) /\
  (forall e2 w2, narration = (Raise e2, w2) ->
     _execute_task cfg fuel task (st, w) = (Raise e, (st, w2))).
Proof.
  intros Hcall narration. subst narration.
  split; intros x w2 Hnarr; unfold _execute_task; unfold_monad;
    unfold read_state, in_world, in_state; rewrite Hcall, Hnarr; reflexivity.
Qed.

Lemma execute_workflow_app fuel (a b : list Step) (run : Run) :
  execute_workflow cfg gather fuel (a ++ b)%list run
    = (execute_workflow cfg gather fuel a;; execute_workflow cfg gather fuel b) run.
Proof.
  revert run. induction a as [|step a IH]; intros run; cbn [app execute_workflow].
  - reflexivity.
  - unfold_monad.
    destruct (execute_step cfg gather fuel step run) as [[[] | e |] run'];
      [apply IH | reflexivity | reflexivity].
Qed.

(** X22. Workflows compose: running the steps of one workflow followed by
    those of another is running the first and, if it raised nothing, the
    second on the state and world it left; if the first raises, no step
    of the second is run. *)
Theorem execute_workflow_composes (fuel : nat) (first second : list Step) (run : Run) :
  (forall run', execute_workflow cfg gather fuel first run = (Ok tt, run') ->
     execute_workflow cfg gather fuel (first ++ second)%list run
       = execute_workflow cfg gather fuel second run') /\
  (forall e run', execute_workflow cfg gather fuel first run = (Raise e, run') ->
     execute_workflow cfg gather fuel (first ++ second)%list run = (Raise e, run')).
Proof.
  split; intros x; intros; rewrite execute_workflow_app; unfold_monad;
    match goal with H : execute_workflow _ _ _ _ _ = _ |- _ => rewrite H end; reflexivity.
Qed.
End TaskRuns.

(** X23. The check of a gathered batch raises the first exception in the
    order of the tasks, whatever comes after it, and returns when no task
    raised. *)
Theorem raise_first_is_first (returned : list pyval) (e : exn) (rest : list (exn + pyval))
    (run : Run) :
  raise_first (map inr returned ++ inl e :: rest)%list run = (Raise e, run) /\
  raise_first (map inr returned) run = (Ok tt, run).
Proof.
  split; induction returned as [|v returned IH]; cbn; auto.
Qed.

Lemma execute_task_stores_result_witness :
  get_variable
    (fst (snd (_execute_task Demo.config 3 Demo.greeting_task
                 (Demo.greeting_state, Demo.world [inr (PStr "hello")]))))
    "greeting" = PStr "hello".
Proof.
  destruct (execute_task_stores_result Demo.config 3 Demo.greeting_task "greeting" []
              Demo.greeting_state (Demo.world [inr (PStr "hello")])
              (snd (call_ai_model Demo.config 3 "thinking_ai" "Hi World"
                      (Some (mkCall None ∅)) None (Demo.world [inr (PStr "hello")])))
              (PStr "hello"))
    as (Hrun & Hget & _); [reflexivity | discriminate | vm_compute; reflexivity |].
  rewrite Hrun. exact Hget.
Defined.

Lemma execute_task_narrates_failure_witness :
  fst (_execute_task Demo.narrator_config 3 Demo.greeting_task
         (Demo.greeting_state, Demo.world (Demo.failing_thrice ++ [inr (PStr "Sorry.")])))
    = Ok (PStr "Sorry.") /\
  fst (_execute_task Demo.config 3 Demo.greeting_task
         (Demo.greeting_state, Demo.world Demo.failing_thrice))
    = Raise (UpstreamError "500").
Proof.
  split.
  - set (w := Demo.world (Demo.failing_thrice ++ [inr (PStr "Sorry.")])).
    set (w1 := snd (call_ai_model Demo.narrator_config 3 "thinking_ai" "Hi World"
                      (Some (mkCall None ∅)) None w)).
    destruct (execute_task_narrates_failure Demo.narrator_config 3 Demo.greeting_task
                Demo.greeting_state w w1 (UpstreamError "500"))
      as [Hnarrated _]; [vm_compute; reflexivity |].
    rewrite (Hnarrated (PStr "Sorry.")
               (snd (call_ai_model Demo.narrator_config 3 "ai_workers_failed_ai"
                       "Task failed: 500. Model: thinking_ai. Prompt: Hi World..."
                       (Some (temperature (7 # 10))) None w1)));
      [reflexivity | vm_compute; reflexivity].
  - set (w := Demo.world Demo.failing_thrice).
    set (w1 := snd (call_ai_model Demo.config 3 "thinking_ai" "Hi World"
                      (Some (mkCall None ∅)) None w)).
    destruct (execute_task_narrates_failure Demo.config 3 Demo.greeting_task
                Demo.greeting_state w w1 (UpstreamError "500"))
      as [_ Hraised]; [vm_compute; reflexivity |].
    rewrite (Hraised (ValueError "Unknown model: ai_workers_failed_ai") w1);
      [reflexivity | vm_compute; reflexivity].
Defined.

Lemma execute_workflow_composes_witness :
  execute_workflow Demo.config Demo.gather_in_order 3
    ([mkStep (Some "batch") []] ++ Demo.two_inline_steps)%list
    (empty_state, Demo.world [])
  = (Raise (ValueError "Unknown step type: batch"), (empty_state, Demo.world [])).
Proof.
  apply (proj2 (execute_workflow_composes Demo.config Demo.gather_in_order 3
                  [mkStep (Some "batch") []] Demo.two_inline_steps
                  (empty_state, Demo.world []))).
  reflexivity.
Defined.

(** ** Request parameters and system prompt *)

(** X24. In the merged request parameters a per-call override wins over the
    default of the model, a parameter that only the model configures keeps
    its default, and a call without a configuration uses the defaults of the
    model as they are. *)
Theorem final_config_precedence (mc : ModelConfig) (call : CallConfig) (key : string) :
  (forall v, params call !! key = Some v -> final_config mc (Some call) !! key = Some v) /\
  (params call !! key = None ->
   final_config mc (Some call) !! key = mc_config mc !! key) /\
  final_config mc None = mc_config mc.
Proof.
  unfold final_config. split; [| split; [| reflexivity]].
  - intros v Hv. now apply lookup_union_Some_l.
  - intros Hnone. now apply lookup_union_r.
Qed.

Lemma final_config_precedence_witness :
  final_config (mkModel "openrouter" "demo/narrator"
                  {[ "temperature" := 1%Q; "top_p" := (1 # 2)%Q ]})
    (Some (temperature (7 # 10))) !! "temperature" = Some (7 # 10)%Q.
Proof.
  apply (proj1 (final_config_precedence _ (temperature (7 # 10)) "temperature")).
  vm_compute. reflexivity.
Defined.

Lemma addon_texts_none (cfg : Config) (names : list string) :
  Forall (fun name => prompt_addons cfg !! name = None \/
                      prompt_addons cfg !! name = Some EmptyString) names ->
  addon_texts cfg names = [].
Proof.
  induction 1 as [|name names Hname _ IH]; [reflexivity |].
  unfold addon_texts in *. cbn [omap list_omap]. rewrite IH.
  destruct Hname as [-> | ->]; reflexivity.
Qed.

(** X25. Addon names that the configuration does not have, or has with an
    empty text, add nothing: the system prompt is the one of a call without
    addons, the override of the caller when it has one and the base prompt
    of the model otherwise. *)
Theorem full_system_prompt_missing_addons (cfg : Config) (model_name : string)
    (names : list string) (sampling : gmap string Q) (system_prompt : option string) :
  Forall (fun name => prompt_addons cfg !! name = None \/
                      prompt_addons cfg !! name = Some EmptyString) names ->
  full_system_prompt cfg model_name (Some (mkCall (Some names) sampling)) system_prompt
    = full_system_prompt cfg model_name None system_prompt /\
  (forall override, override <> EmptyString ->
     full_system_prompt cfg model_name None (Some override) = override) /\
  full_system_prompt cfg model_name None None
    = default EmptyString (base_ai_prompts cfg !! model_name).
Proof.
  intros Hnames. unfold full_system_prompt. cbn [addons].
  rewrite (addon_texts_none cfg names Hnames). split; [reflexivity |].
  split; [| reflexivity].
  intros override Hne. destruct (String.eqb_spec override EmptyString); [contradiction | reflexivity].
Qed.

Lemma full_system_prompt_missing_addons_witness :
  full_system_prompt Demo.narrator_config "thinking_ai"
    (Some (mkCall (Some ["void"; "unknown"]) ∅)) None
  = full_system_prompt Demo.narrator_config "thinking_ai" None None.
Proof.
  refine (proj1 (full_system_prompt_missing_addons Demo.narrator_config "thinking_ai"
                   ["void"; "unknown"] ∅ None _)).
  constructor; [right; vm_compute; reflexivity |].
  constructor; [left; vm_compute; reflexivity | constructor].
Defined.

(** ** The high tier never raises on a plan *)

(** X26. On the high-tier path, once the acknowledgement call and the
    planner call have returned, and provided that [json.loads] raises nothing
    but [JSONDecodeError] on the plan and returns no value without [get],
    [process_request] raises nothing: whether the plan is JSON or not and
    whether the workflow runs through, sets a completion message or raises,
    the result is a string in which the acknowledgement occurs, unless the
    workflow is still running. *)
Theorem high_tier_always_answers (cfg : Config)
    (gather : list (M Run pyval) -> M Run (list (exn + pyval)))
    (json_loads : string -> planned) (json_dumps : gmap string pyval -> string)
    (fuel : nat) (user_message : string) (context_tokens : Z)
    (routing : gmap string string) (fast_model model : string)
    (fast_response : pyval) (text : string) (w w1 w2 w3 : World) :
  categorize_request cfg fuel user_message context_tokens w = (Ok "H", w1) ->
  categorization cfg !! "H" = Some routing ->
  routing !! "fast_response_model" = Some fast_model ->
  routing !! "model" = Some model ->
  call_ai_model cfg fuel fast_model (acknowledge_prompt user_message)
    (Some (temperature (7 # 10))) None w1 = (Ok fast_response, w2) ->
  call_ai_model cfg fuel model (workflow_prompt user_message)
    (Some (temperature (7 # 10))) None w2 = (Ok (PStr text), w3) ->
  (forall e, json_loads (_extract_json text) = JsonRaises e ->
             is_json_decode_error e = true) ->
  (forall type_name, json_loads (_extract_json text) <> JsonNotObject type_name) ->
  fst (process_request cfg gather json_loads json_dumps fuel user_message context_tokens w)
    = Diverge \/
  exists answer,
    fst (process_request cfg gather json_loads json_dumps fuel user_message context_tokens w)
      = Ok (PStr answer) /\
    occurs_in (py_str fast_response) answer.
Proof.
  intros Hcat Hroute Hfast Hmodel Hack Hplan Hclass Hobject.
  rewrite (process_request_high cfg gather json_loads json_dumps fuel user_message
             context_tokens routing fast_model model fast_response (PStr text)
             w w1 w2 w3 Hcat Hroute Hfast Hmodel Hack Hplan).
  unfold run_plan.
  destruct (json_loads (_extract_json text)) as [msg | e | type_name | steps].
  - right. eexists. split; [reflexivity | apply occurs_suffix].
  - rewrite (Hclass e eq_refl).
    right. eexists. split; [reflexivity | apply occurs_suffix].
  - now destruct (Hobject type_name).
  - destruct (execute_workflow cfg gather fuel steps _) as [[[] | e |] [st' w4]].
    + right. destruct (py_truthy (get_variable st' "completion_message"));
        eexists; (split; [reflexivity | apply occurs_prefix]).
    + right. eexists. split; [reflexivity | apply occurs_prefix].
    + now left.
Qed.

Lemma high_tier_always_answers_witness :
  exists answer,
    fst (process_request Demo.config Demo.gather_in_order Demo.one_bad_step Demo.dumps 3
           "build a site" 0
           (Demo.world [inr (PStr "H"); inr (PStr "On it!"); inr (PStr "sorry")]))
      = Ok (PStr answer) /\
    occurs_in "On it!" answer.
Proof.
  set (w := Demo.world [inr (PStr "H"); inr (PStr "On it!"); inr (PStr "sorry")]).
  set (w1 := snd (categorize_request Demo.config 3 "build a site" 0 w)).
  set (w2 := snd (call_ai_model Demo.config 3 "fast_response_ai"
                    (acknowledge_prompt "build a site") (Some (temperature (7 # 10))) None w1)).
  set (w3 := snd (call_ai_model Demo.config 3 "master_ai"
                    (workflow_prompt "build a site") (Some (temperature (7 # 10))) None w2)).
  destruct (high_tier_always_answers Demo.config Demo.gather_in_order Demo.one_bad_step
              Demo.dumps 3 "build a site" 0
              {[ "model" := "master_ai"; "fast_response_model" := "fast_response_ai" ]}
              "fast_response_ai" "master_ai" (PStr "On it!") "sorry" w w1 w2 w3)
    as [Hdiv | Hanswer]; [vm_compute; reflexivity .. | discriminate | discriminate | |].
  - exfalso. vm_compute in Hdiv. discriminate.
  - exact Hanswer.
Defined.

(** ** What an inline workflow writes *)

Section Frame.
Variable cfg : Config.
Variable gather : list (M Run pyval) -> M Run (list (exn + pyval)).

Lemma execute_task_frame (fuel : nat) (task : Task) (st : WorkflowState) (w : World)
    (name : string) :
  task_output_variable task <> Some name ->
  get_variable (fst (snd (_execute_task cfg fuel task (st, w)))) name
    = get_variable st name.
Proof.
  intros Hother. unfold _execute_task. unfold_monad. unfold read_state, in_world.
  destruct (call_ai_model cfg fuel (task_model task) _ _ None w) as [[v | e |] w1].
  - destruct (names_variable (task_output_variable task)) as [out |] eqn:Eout;
      cbn; [| reflexivity].
    unfold get_variable, set_variable. cbn.
    rewrite lookup_insert_ne; [reflexivity |].
    intros ->. apply Hother. unfold names_variable in Eout.
    destruct (task_output_variable task) as [o |]; [| discriminate].
    destruct (String.eqb o EmptyString); [discriminate | congruence].
  - destruct (call_ai_model cfg fuel "ai_workers_failed_ai" _ _ None w1)
      as [[v | e' |] w2]; reflexivity.
  - reflexivity.
Qed.

Lemma run_inline_frame (fuel : nat) (tasks : list Task) (name : string) :
  Forall (fun task => task_output_variable task <> Some name) tasks ->
  forall run,
    get_variable (fst (snd (run_inline cfg fuel tasks run))) name
      = get_variable (fst run) name.
Proof.
  induction 1 as [|task tasks Htask _ IH]; intros [st w]; [reflexivity |].
  cbn [run_inline]. unfold_monad.
  pose proof (execute_task_frame fuel task st w name Htask) as Hone.
  destruct (_execute_task cfg fuel task (st, w)) as [[v | e |] run1]; cbn [fst snd] in *;
    try exact Hone.
  rewrite IH. exact Hone.
Qed.

(** X27. A workflow of inline steps writes only the output variables of
    its tasks: a variable that no task names as its output variable reads
    after the run, however it ends, as it read before. *)
Theorem inline_workflow_writes_outputs_only (fuel : nat) (steps : list Step)
    (name : string) (st : WorkflowState) (w : World) :
  Forall (fun step => default "inline" (step_type step) = "inline") steps ->
  Forall (fun task => task_output_variable task <> Some name)
    (concat (map step_tasks steps)) ->
  get_variable (fst (snd (execute_workflow cfg gather fuel steps (st, w)))) name
    = get_variable st name.
Proof.
  intros Hinline Hother.
  rewrite (execute_workflow_inline cfg gather fuel steps (st, w) Hinline).
  exact (run_inline_frame fuel _ name Hother (st, w)).
Qed.
End Frame.

Lemma inline_workflow_writes_outputs_only_witness :
  get_variable
    (fst (snd (execute_workflow Demo.config Demo.gather_in_order 3 Demo.two_inline_steps
                 (Demo.greeting_state,
                  Demo.world [inr (PStr "fast"); inr (PStr "done")]))))
    "name" = PStr "World".
Proof.
  rewrite (inline_workflow_writes_outputs_only Demo.config Demo.gather_in_order 3
             Demo.two_inline_steps "name").
  - reflexivity.
  - repeat constructor.
  - repeat constructor; discriminate.
Defined.

(** ** The HTTP front end *)

Lemma seed_state_variables (vars : gmap string pyval) :
  Api.seed_state (Some vars) = mkState vars ∅.
Proof.
  unfold Api.seed_state.
  apply (map_fold_weak_ind (fun st m => st = mkState m ∅)); [reflexivity |].
  intros name value m st _ ->. reflexivity.
Qed.

(** X28. [POST /workflow], once the orchestrator is there, answers 200 with
    status "completed" and the variables of the final state when the
    workflow runs through, and 500 with [str(e)] when it raises [e]: no
    exception leaves the endpoint.  A workflow without steps gives back the
    variables of the request, and after a workflow of inline steps every
    variable of the request that no task names as its output is in the
    result as it was sent. *)
Theorem workflow_endpoint_answers (cfg : Config)
    (gather : list (M Run pyval) -> M Run (list (exn + pyval))) (fuel : nat)
    (workflow : list Step) (vars : gmap string pyval) (w : World) :
  (forall e final_state w',
     execute_workflow cfg gather fuel workflow (mkState vars ∅, w)
       = (Raise e, (final_state, w')) ->
     Api.execute_workflow (Some cfg) gather fuel workflow (Some vars) w
       = (Ok (Api.HTTPException 500 (exn_str e)), w')) /\
  (forall final_state w',
     execute_workflow cfg gather fuel workflow (mkState vars ∅, w)
       = (Ok tt, (final_state, w')) ->
     Api.execute_workflow (Some cfg) gather fuel workflow (Some vars) w
       = (Ok (Api.Response (Api.mkWorkflowResponse "completed" (variables final_state)
                              (clock w' - clock w))), w') /\
     (Forall (fun step => default "inline" (step_type step) = "inline") workflow ->
      forall name,
        Forall (fun task => task_output_variable task <> Some name)
          (concat (map step_tasks workflow)) ->
        default PNone (variables final_state !! name) = default PNone (vars !! name))) /\
  Api.execute_workflow (Some cfg) gather fuel [] (Some vars) w
    = (Ok (Api.Response (Api.mkWorkflowResponse "completed" vars (clock w - clock w))), w).
Proof.
  unfold Api.execute_workflow. rewrite seed_state_variables.
  split; [| split].
  - intros e final_state w' Hrun. now rewrite Hrun.
  - intros final_state w' Hrun. split; [now rewrite Hrun |].
    intros Hinline name Hother.
    pose proof (run_inline_frame cfg fuel _ name Hother (mkState vars ∅, w)) as Hframe.
    rewrite <- (execute_workflow_inline cfg gather fuel workflow _ Hinline) in Hframe.
    rewrite Hrun in Hframe. exact Hframe.
  - reflexivity.
Qed.

Lemma workflow_endpoint_answers_witness :
  Api.execute_workflow (Some Demo.config) Demo.gather_in_order 3
    [mkStep (Some "sequential") []] (Some {[ "topic" := PStr "tea" ]}) (Demo.world [])
  = (Ok (Api.HTTPException 500 "Unknown step type: sequential"), Demo.world []).
Proof.
  apply (proj1 (workflow_endpoint_answers Demo.config Demo.gather_in_order 3
                  [mkStep (Some "sequential") []] {[ "topic" := PStr "tea" ]} (Demo.world []))
           (ValueError "Unknown step type: sequential")
           (mkState {[ "topic" := PStr "tea" ]} ∅)).
  reflexivity.
Defined.

(** X29. A session that was deleted is gone: deleting an existing session
    answers with its name, after which reading or deleting it answers 404,
    while every other session reads as before; deleting a session that is
    not there answers 404 and leaves the store as it was. *)
Theorem delete_session_then_get (session_id other : string) (sessions : gmap string Api.Session) :
  (forall session, sessions !! session_id = Some session ->
     fst (Api.delete_session session_id sessions) = Api.Response session_id /\
     Api.get_session session_id (snd (Api.delete_session session_id sessions))
       = Api.HTTPException 404 "Session not found" /\
     Api.delete_session session_id (snd (Api.delete_session session_id sessions))
       = (Api.HTTPException 404 "Session not found",
          snd (Api.delete_session session_id sessions))) /\
  (other <> session_id ->
   Api.get_session other (snd (Api.delete_session session_id sessions))
     = Api.get_session other sessions) /\
  (sessions !! session_id = None ->
   Api.delete_session session_id sessions
     = (Api.HTTPException 404 "Session not found", sessions)).
Proof.
  unfold Api.delete_session, Api.get_session. split; [| split].
  - intros session ->. cbn [fst snd]. rewrite lookup_delete_eq. repeat split.
  - intros Hne. destruct (sessions !! session_id); cbn [snd]; [| reflexivity].
    now rewrite lookup_delete_ne by congruence.
  - intros ->. reflexivity.
Qed.

Lemma delete_session_then_get_witness :
  Api.get_session "a"
    (snd (Api.delete_session "a" {[ "a" := Api.mkSession "t0" [] ]}))
  = Api.HTTPException 404 "Session not found".
Proof.
  refine (proj1 (proj2 (proj1 (delete_session_then_get "a" "b"
                                 {[ "a" := Api.mkSession "t0" [] ]})
                          (Api.mkSession "t0" []) _))).
  vm_compute. reflexivity.
Defined.

Section Chat.
Variable cfg : Config.
Variable gather : list (M Run pyval) -> M Run (list (exn + pyval)).
Variable json_loads : string -> planned.
Variable json_dumps : gmap string pyval -> string.
Variable isoformat : Q -> string.
Variable uuid4 : string.
Variable validate_other : pyval -> exn + string.

(** X30. [POST /chat] records the message of the user in the session
    before the request is processed, making the session when it is not
    there.  When [process_request] raises [e] the answer is 500 with
    [str(e)] and the session ends with the message of the user, without a
    reply; when it returns a text the answer is 200 with that text and the
    session ends with the message of the user followed by the reply. *)
Theorem chat_records_messages (fuel : nat) (message session_id : string)
    (context_tokens : Z) (sessions : gmap string Api.Session) (w w' : World) :
  session_id <> EmptyString ->
  let before := default [] (Api.messages <$> sessions !! session_id) in
  let asked := Api.mkMessage "user" (PStr message) (isoformat (clock w)) in
  let run := Api.chat (Some cfg) gather json_loads json_dumps isoformat uuid4
               validate_other fuel message (Some session_id) context_tokens
               (sessions, w) in
  (forall e,
     process_request cfg gather json_loads json_dumps fuel message context_tokens w
       = (Raise e, w') ->
     fst run = Ok (Api.HTTPException 500 (exn_str e)) /\
     Api.messages <$> (fst (snd run) !! session_id) = Some (before ++ [asked])%list) /\
  (forall text,
     process_request cfg gather json_loads json_dumps fuel message context_tokens w
       = (Ok (PStr text), w') ->
     fst run = Ok (Api.Response (Api.mkChatResponse session_id text (isoformat (clock w')))) /\
     Api.messages <$> (fst (snd run) !! session_id)
       = Some (before ++ [asked;
                          Api.mkMessage "assistant" (PStr text) (isoformat (clock w'))])%list).
Proof.
  intros Hid before asked run.
  assert (Hsid : (if String.eqb session_id EmptyString then uuid4 else session_id)
                 = session_id)
    by (destruct (String.eqb_spec session_id EmptyString); [contradiction | reflexivity]).
  set (opened := match sessions !! session_id with
                 | Some _ => sessions
                 | None => <[session_id := Api.mkSession (isoformat (clock w)) []]> sessions
                 end).
  assert (Hopened : exists created,
            opened !! session_id = Some (Api.mkSession created before)).
  { unfold opened, before. destruct (sessions !! session_id) as [[created msgs] |] eqn:E.
    - rewrite E. eauto.
    - rewrite lookup_insert_eq. eauto. }
  destruct Hopened as (created & Hopened).
  assert (Hasked : Api.append_message session_id asked opened !! session_id
                   = Some (Api.mkSession created (before ++ [asked]))).
  { unfold Api.append_message. rewrite Hopened. now rewrite lookup_insert_eq. }
  subst run. unfold Api.chat. rewrite Hsid. fold opened. fold asked.
  split.
  - intros e Hrun. rewrite Hrun. cbn [fst snd]. now rewrite Hasked.
  - intros text Hrun. rewrite Hrun. cbn [Api.validate_response fst snd].
    unfold Api.append_message at 1. rewrite Hasked. rewrite lookup_insert_eq.
    cbn. now rewrite <- app_assoc.
Qed.
End Chat.

Lemma chat_records_messages_witness :
  Api.messages <$>
    (fst (snd (Api.chat (Some Demo.config) Demo.gather_in_order Demo.no_json Demo.dumps
                 (fun _ => "now") "fresh" (fun _ => inr "None") 3 "image: x" (Some "s1")
                 200001 (∅, Demo.world []))) !! "s1")
  = Some [Api.mkMessage "user" (PStr "image: x") "now"].
Proof.
  refine (proj2 (proj1 (chat_records_messages Demo.config Demo.gather_in_order Demo.no_json
                          Demo.dumps (fun _ => "now") "fresh" (fun _ => inr "None") 3
                          "image: x" "s1" 200001 ∅ (Demo.world []) (Demo.world []) _)
                   (ValueError "Request exceeds maximum token limit") _)).
  - discriminate.
  - vm_compute. reflexivity.
Defined.
